(** * Budget-Dekho: receipt normalisation, draft reconciliation, balance ledger

    A shallow embedding of
      - [src/actions/transaction.js]: [scanReceipt], [createTransaction],
        [getTransaction], [updateTransaction], [calculateNextRecurringDate];
      - the transaction form component ([AddTransactionForm] with its
        [handleScanComplete] handler and its type-change effect) and the
        [ReceiptScanner] component that feeds it.

    Modelling conventions.
      - A JavaScript number is [NaN], a signed infinity or an exact rational
        ([Q]); the rounding, overflow and underflow of binary64 are outside
        the model.  Money columns (Prisma [Decimal]) are rationals as well.
      - A JavaScript string is a [string] of bytes; [trim] and [toLowerCase]
        act on the ASCII white space and the ASCII letters.
      - A value produced by [JSON.parse] is a [value]; an object is the list
        of its own properties in insertion order.  Converting a value to a
        string or to a number raises a TypeError for the values described
        by [unprintable].
      - A write inside a database transaction may fail in the store;
        [createTransaction_on] takes the writes the store carries out, and
        [createTransaction] is the action on a store that carries out
        all.
      - What the environment decides (the signed-in user, the clock, the
        answer of the vision model, [JSON.parse], the [Date] constructor, the
        identifier the store gives a new row) is an argument of the function
        that asks for it. *)

From Stdlib Require Import ZArith QArith Lia List Bool Ascii String.
From stdpp Require Import gmap strings list fin_maps.

Set Warnings "-register-all".

Local Open Scope string_scope.
Local Open Scope Z_scope.

(* ===================================================================== *)
(** * Definitions                                                         *)
(* ===================================================================== *)

(* --------------------------------------------------------------------- *)
(** ** JavaScript strings                                                 *)
(* --------------------------------------------------------------------- *)

Definition char_code (c : ascii) : Z := Z.of_N (N_of_ascii c).

Definition is_digit (c : ascii) : bool :=
  (48 <=? char_code c) && (char_code c <=? 57).

Definition digit_value (c : ascii) : Z := char_code c - 48.

(** White space and line terminators that [trim] strips (TAB, LF, VT, FF,
    CR, SP). *)
Definition isWhiteSpace (c : ascii) : bool :=
  ((9 <=? char_code c) && (char_code c <=? 13)) || (char_code c =? 32).

Fixpoint trimStart (s : string) : string :=
  match s with
  | String c r => if isWhiteSpace c then trimStart r else s
  | EmptyString => EmptyString
  end.

Fixpoint trimEnd (s : string) : string :=
  match s with
  | String c r =>
      match trimEnd r with
      | EmptyString => if isWhiteSpace c then EmptyString else String c EmptyString
      | r' => String c r'
      end
  | EmptyString => EmptyString
  end.

Definition trim (s : string) : string := trimStart (trimEnd s).

Definition lower_char (c : ascii) : ascii :=
  if (65 <=? char_code c) && (char_code c <=? 90)
  then ascii_of_N (N_of_ascii c + 32)
  else c.

Fixpoint toLowerCase (s : string) : string :=
  match s with
  | String c r => String (lower_char c) (toLowerCase r)
  | EmptyString => EmptyString
  end.

Fixpoint strip_prefix (p s : string) : option string :=
  match p, s with
  | EmptyString, _ => Some s
  | String a p', String b s' => if Ascii.eqb a b then strip_prefix p' s' else None
  | String _ _, EmptyString => None
  end.

Definition startsWith (s p : string) : bool :=
  match strip_prefix p s with Some _ => true | None => false end.

(** The leading decimal digits of a string, and what follows them. *)
Fixpoint span_digits (s : string) : string * string :=
  match s with
  | String c r =>
      if is_digit c
      then (String c (fst (span_digits r)), snd (span_digits r))
      else (EmptyString, s)
  | EmptyString => (EmptyString, EmptyString)
  end.

Definition digits_value (s : string) : Z :=
  fold_left (fun acc c => 10 * acc + digit_value c) (list_ascii_of_string s) 0.

(* --------------------------------------------------------------------- *)
(** ** JavaScript numbers and values                                      *)
(* --------------------------------------------------------------------- *)

Inductive number :=
| NaN
| Infinity (negative : bool)
| Finite (q : Q).

Definition isNaN (n : number) : bool :=
  match n with NaN => true | _ => false end.

(** [n > 0] and [n <= 0] on numbers; every comparison with [NaN] is false. *)
Definition gt_zero (n : number) : bool :=
  match n with
  | NaN => false
  | Infinity negative => negb negative
  | Finite q => negb (Qle_bool q 0)
  end.

Definition le_zero (n : number) : bool :=
  match n with
  | NaN => false
  | Infinity negative => negative
  | Finite q => Qle_bool q 0
  end.

Inductive value :=
| VUndefined
| VNull
| VBool (b : bool)
| VNumber (n : number)
| VString (s : string)
| VArray (items : list value)
| VObject (fields : list (string * value)).

(** [ToBoolean]: what [!x], [x || y] and [if (x)] look at. *)
Definition ToBoolean (v : value) : bool :=
  match v with
  | VUndefined | VNull => false
  | VBool b => b
  | VNumber NaN => false
  | VNumber (Infinity _) => true
  | VNumber (Finite q) => negb (Qeq_bool q 0)
  | VString s => negb (String.eqb s EmptyString)
  | VArray _ | VObject _ => true
  end.

(** [x === ], strict equality with the empty string. *)
Definition is_empty_string (v : value) : bool :=
  match v with VString s => String.eqb s EmptyString | _ => false end.

(** The exponent part [e±ddd] of a decimal literal, when it is complete;
    otherwise nothing is consumed. *)
Definition scan_exponent (s : string) : Z * string :=
  match s with
  | String c r =>
      if Ascii.eqb c "e" || Ascii.eqb c "E" then
        let '(negative, r1) :=
          match r with
          | String "+" t => (false, t)
          | String "-" t => (true, t)
          | _ => (false, r)
          end in
        let '(ds, t) := span_digits r1 in
        match ds with
        | EmptyString => (0, s)
        | _ => ((if negative then - digits_value ds else digits_value ds), t)
        end
      else (0, s)
  | EmptyString => (0, s)
  end.

(** The longest prefix that is an unsigned decimal literal
    ([ddd], [ddd.], [ddd.ddd], [.ddd], each with an optional exponent). *)
Definition scan_unsigned (s : string) : option (Q * string) :=
  let '(ip, r) := span_digits s in
  let mantissa :=
    match r with
    | String "." t =>
        let '(fp, t') := span_digits t in
        match ip, fp with
        | EmptyString, EmptyString => None
        | _, _ => Some (ip, fp, t')
        end
    | _ =>
        match ip with
        | EmptyString => None
        | _ => Some (ip, EmptyString, r)
        end
    end in
  match mantissa with
  | None => None
  | Some (ip, fp, r') =>
      let '(e, rest) := scan_exponent r' in
      Some ((inject_Z (digits_value (String.append ip fp))
             * Qpower (10 # 1) (e - Z.of_nat (String.length fp)))%Q, rest)
  end.

(** The longest prefix that is a [StrDecimalLiteral]: an optional sign, then
    [Infinity] or an unsigned decimal literal. *)
Definition scan_StrDecimalLiteral (s : string) : option (number * string) :=
  let '(negative, r) :=
    match s with
    | String "+" t => (false, t)
    | String "-" t => (true, t)
    | _ => (false, s)
    end in
  match strip_prefix "Infinity" r with
  | Some t => Some (Infinity negative, t)
  | None =>
      match scan_unsigned r with
      | Some (q, t) => Some (Finite (if negative then (- q)%Q else q), t)
      | None => None
      end
  end.

(** [parseFloat] of a string: leading white space is skipped, the longest
    decimal prefix is the result, what follows it is ignored. *)
Definition parseFloat_string (s : string) : number :=
  match scan_StrDecimalLiteral (trimStart s) with
  | Some (n, _) => n
  | None => NaN
  end.

Definition radix_digit (radix : Z) (c : ascii) : option Z :=
  let n := char_code c in
  let d := if (48 <=? n) && (n <=? 57) then n - 48
           else if (97 <=? n) && (n <=? 102) then n - 87
           else if (65 <=? n) && (n <=? 70) then n - 55
           else radix in
  if d <? radix then Some d else None.

Fixpoint radix_value (radix : Z) (acc : Z) (s : string) : option Z :=
  match s with
  | EmptyString => Some acc
  | String c r =>
      match radix_digit radix c with
      | Some d => radix_value radix (radix * acc + d) r
      | None => None
      end
  end.

(** [0x], [0o] and [0b] literals, which [Number(string)] accepts (unsigned,
    at least one digit) and [parseFloat] does not. *)
Definition scan_NonDecimal (s : string) : option number :=
  match s with
  | String "0" (String p (String c r)) =>
      let radix :=
        if Ascii.eqb p "x" || Ascii.eqb p "X" then Some 16
        else if Ascii.eqb p "o" || Ascii.eqb p "O" then Some 8
        else if Ascii.eqb p "b" || Ascii.eqb p "B" then Some 2
        else None in
      match radix with
      | Some k =>
          match radix_value k 0 (String c r) with
          | Some z => Some (Finite (inject_Z z))
          | None => Some NaN
          end
      | None => None
      end
  | _ => None
  end.

(** [Number(s)] for a string: the whole trimmed string has to be a numeric
    literal; the empty string is 0. *)
Definition StringToNumber (s : string) : number :=
  match trim s with
  | EmptyString => Finite 0
  | t =>
      match scan_NonDecimal t with
      | Some n => n
      | None =>
          match scan_StrDecimalLiteral t with
          | Some (n, EmptyString) => n
          | _ => NaN
          end
      end
  end.

(** [ToNumber], the coercion behind [x <= 0], of a value that can be
    converted (the others are [unprintable], below, and raise).  An array
    goes through its string: the empty array prints as the empty string, a
    one-element array as that element ([null] and [undefined] print as
    nothing there), a longer array has a comma in it and is no number.  A
    number printed and read back is itself. *)
Fixpoint ToNumber (v : value) : number :=
  match v with
  | VUndefined => NaN
  | VNull => Finite 0
  | VBool b => Finite (if b then 1 else 0)
  | VNumber n => n
  | VString s => StringToNumber s
  | VObject _ => NaN
  | VArray [] => Finite 0
  | VArray [x] =>
      match x with
      | VUndefined | VNull => Finite 0
      | VBool _ => NaN
      | _ => ToNumber x
      end
  | VArray _ => NaN
  end.

(** [parseFloat(x)] reads a decimal prefix of the string of [x].  The string
    of an array starts with the string of its first element, and the comma
    that may follow it ends every prefix. *)
Fixpoint parseFloat (v : value) : number :=
  match v with
  | VNumber n => n
  | VString s => parseFloat_string s
  | VArray (x :: _) => parseFloat x
  | _ => NaN
  end.

(** [/^\d{4}-\d{2}-\d{2}$/] on a string. *)
Definition dateRegex_match (s : string) : bool :=
  match list_ascii_of_string s with
  | [y1; y2; y3; y4; h1; m1; m2; h2; d1; d2] =>
      is_digit y1 && is_digit y2 && is_digit y3 && is_digit y4
      && Ascii.eqb h1 "-" && is_digit m1 && is_digit m2
      && Ascii.eqb h2 "-" && is_digit d1 && is_digit d2
  | _ => false
  end.

(** [dateRegex.test(x)] matches against the string of [x]; only a string,
    or an array that prints as one, can print as ten such characters. *)
Fixpoint dateRegex_test (v : value) : bool :=
  match v with
  | VString s => dateRegex_match s
  | VArray [x] => dateRegex_test x
  | _ => false
  end.

(** Own properties of an object, as [JSON.parse] builds them. *)
Fixpoint assoc_get (fields : list (string * value)) (k : string) : value :=
  match fields with
  | [] => VUndefined
  | (k', v) :: rest => if String.eqb k' k then v else assoc_get rest k
  end.

Fixpoint assoc_set (fields : list (string * value)) (k : string) (v : value)
  : list (string * value) :=
  match fields with
  | [] => [(k, v)]
  | (k', v') :: rest =>
      if String.eqb k' k then (k, v) :: rest else (k', v') :: assoc_set rest k v
  end.

(** [o.k] for the four property names of a draft: arrays and primitives
    have none of them ([null] and [undefined] are the caller's business). *)
Definition get (o : value) (k : string) : value :=
  match o with
  | VObject fields => assoc_get fields k
  | _ => VUndefined
  end.

(** [o.k = v] on an object. *)
Definition set (o : value) (k : string) (v : value) : value :=
  match o with
  | VObject fields => VObject (assoc_set fields k v)
  | _ => o
  end.

Fixpoint has_key (fields : list (string * value)) (k : string) : bool :=
  match fields with
  | [] => false
  | (k', _) :: rest => String.eqb k' k || has_key rest k
  end.

(** The values whose conversion to a string or a number raises a TypeError.
    An object is converted by its [valueOf] and [toString] methods; the
    inherited [valueOf] returns the object itself, so the result comes from
    [toString], and an own property of that name, which in parsed JSON is
    never a function, hides the inherited method: neither method gives a
    primitive and the conversion raises.  An array is converted by joining
    the strings of all its elements ([null] and [undefined] print as
    nothing), so it raises when one of them does. *)
Fixpoint unprintable (v : value) : bool :=
  match v with
  | VObject fields => has_key fields "toString"
  | VArray items => existsb unprintable items
  | _ => false
  end.

(* --------------------------------------------------------------------- *)
(** ** scanReceipt                                                        *)
(* --------------------------------------------------------------------- *)

Inductive result (A : Type) :=
| Ok (a : A)
| Throw (message : string).
Arguments Ok {A} a.
Arguments Throw {A} message.

(** [s.replace(/<fence>\n?/g, '')]: every occurrence of [fence], with the line
    feed that may follow it, is removed, scanning from the left. *)
Fixpoint remove_fence_from (fence : string) (skip : nat) (s : string) : string :=
  match s with
  | EmptyString => EmptyString
  | String c r =>
      match skip with
      | S k => remove_fence_from fence k r
      | O =>
          match strip_prefix fence s with
          | Some (String "010" _) => remove_fence_from fence (String.length fence) r
          | Some _ => remove_fence_from fence (String.length fence - 1) r
          | None => String c (remove_fence_from fence O r)
          end
      end
  end.

Definition remove_fence (fence s : string) : string := remove_fence_from fence O s.

Fixpoint strip_leading_backticks (s : string) : string :=
  match s with
  | String "`" r => strip_leading_backticks r
  | _ => s
  end.

Fixpoint strip_trailing_backticks (s : string) : string :=
  match s with
  | String c r =>
      match strip_trailing_backticks r with
      | EmptyString => if Ascii.eqb c "`" then EmptyString else String c EmptyString
      | r' => String c r'
      end
  | EmptyString => EmptyString
  end.

(** Lines 83-87: the clean-up of Markdown fencing. *)
Definition cleanResponse (responseText : string) : string :=
  trim
    (strip_trailing_backticks
       (strip_leading_backticks
          (remove_fence "```" (remove_fence "```json" responseText)))).

Definition msg_no_amount : string := "Could not extract amount from receipt".
Definition msg_invalid_amount : string := "Invalid amount in receipt".
Definition msg_invalid_response : string := "Invalid response from AI. Please try again.".
Definition msg_null_property : string :=
  "Cannot read properties of null (reading 'amount')".
Definition msg_cannot_convert : string :=
  "Cannot convert object to primitive value".
Definition placeholder_description : string := "Receipt Transaction".

(** A coercion of [v], written [f] for the values that can be converted: it
    raises the TypeError for the others. *)
Definition coerce {A : Type} (f : value -> A) (v : value) : result A :=
  if unprintable v then Throw msg_cannot_convert else Ok (f v).

(** Lines 103-134: validation and defaults, on the parsed value; [today] is
    [new Date().toISOString().split('T')[0]].  The comparison of line 104,
    [parseFloat] of line 109 and [dateRegex.test] of line 122 coerce their
    argument and can raise. *)
Definition normalize (today : string) (parsedData : value) : result value :=
  match parsedData with
  | VNull | VUndefined => Throw msg_null_property
  | _ =>
      let amount := get parsedData "amount" in
      if negb (ToBoolean amount) then Throw msg_no_amount
      else
        match coerce ToNumber amount with
        | Throw m => Throw m
        | Ok n =>
            if le_zero n then Throw msg_no_amount
            else
              match coerce parseFloat amount with
              | Throw m => Throw m
              | Ok a =>
                  if isNaN a then Throw msg_invalid_amount
                  else
                    let p1 := set parsedData "amount" (VNumber a) in
                    let p2 :=
                      if negb (ToBoolean (get p1 "date"))
                         || is_empty_string (get p1 "date")
                      then set p1 "date" (VString today) else p1 in
                    match coerce dateRegex_test (get p2 "date") with
                    | Throw m => Throw m
                    | Ok matches =>
                        let p3 :=
                          if negb matches
                          then set p2 "date" (VString today) else p2 in
                        let p4 :=
                          if negb (ToBoolean (get p3 "description"))
                             || is_empty_string (get p3 "description")
                          then set p3 "description" (VString placeholder_description)
                          else p3 in
                        let p5 :=
                          set p4 "category"
                            (if ToBoolean (get p4 "category") then get p4 "category"
                             else VString EmptyString) in
                        Ok p5
                    end
              end
        end
  end.

Record ReceiptFile := {
  file_type : string;
  file_size : Z
}.

(** What [scanReceipt] resolves to: [{ success: true, data }]. *)
Record ScanResult := {
  scan_success : bool;
  scan_data : value
}.

(** [scanReceipt(receiptFile)].  [userId] is what [auth()] gives,
    [generateContent] the answer of the model (its text, or the message of
    the error it raised), [JSON_parse] is [JSON.parse] ([None] when it
    raises). *)
Definition scanReceipt (userId : option string) (receiptFile : option ReceiptFile)
    (generateContent : result string) (JSON_parse : string -> option value)
    (today : string) : result ScanResult :=
  let body : result ScanResult :=
    match userId with
    | None => Throw "Unauthorized"
    | Some _ =>
        match receiptFile with
        | None => Throw "No receipt file provided"
        | Some _ =>
            match generateContent with
            | Throw m => Throw m
            | Ok responseText =>
                match JSON_parse (cleanResponse responseText) with
                | None => Throw msg_invalid_response
                | Some parsedData =>
                    match normalize today parsedData with
                    | Throw m => Throw m
                    | Ok d => Ok {| scan_success := true; scan_data := d |}
                    end
                end
            end
        end
    end in
  match body with
  | Ok r => Ok r
  | Throw m => Throw (String.append "Failed to scan receipt: " m)
  end.

(* --------------------------------------------------------------------- *)
(** ** Dates                                                              *)
(* --------------------------------------------------------------------- *)

(** A [Date] object, by what its getters return: [getFullYear], [getMonth]
    (0 to 11), [getDate] (1 to the length of the month) and the milliseconds
    since midnight.  The local time zone is a fixed offset from UTC (no
    daylight-saving shifts), so local days are 86400000 ms long. *)
Record Date := {
  getFullYear : Z;
  getMonth : Z;
  getDate : Z;
  timeInDay : Z
}.

Definition msPerDay : Z := 86400000.

Definition isLeapYear (y : Z) : bool :=
  ((y mod 4 =? 0) && negb (y mod 100 =? 0)) || (y mod 400 =? 0).

Definition DaysInYear (y : Z) : Z := if isLeapYear y then 366 else 365.

(** ECMAScript [DayFromYear]: the day number of January 1st. *)
Definition DayFromYear (y : Z) : Z :=
  365 * (y - 1970) + (y - 1969) / 4 - (y - 1901) / 100 + (y - 1601) / 400.

Definition daysInMonth (y m : Z) : Z :=
  if m =? 1 then (if isLeapYear y then 29 else 28)
  else if (m =? 3) || (m =? 5) || (m =? 8) || (m =? 10) then 30
  else 31.

(** Days of the year before the first of month [m]. *)
Definition daysBeforeMonth (y m : Z) : Z :=
  let leap := if isLeapYear y then 1 else 0 in
  if m <=? 0 then 0
  else if m =? 1 then 31
  else if m =? 2 then 59 + leap
  else if m =? 3 then 90 + leap
  else if m =? 4 then 120 + leap
  else if m =? 5 then 151 + leap
  else if m =? 6 then 181 + leap
  else if m =? 7 then 212 + leap
  else if m =? 8 then 243 + leap
  else if m =? 9 then 273 + leap
  else if m =? 10 then 304 + leap
  else 334 + leap.

(** ECMAScript [MakeDay(year, month, date)]: the day number of the
    [date]-th day counted from the first of the month, with months beyond
    0..11 carried into the year. *)
Definition MakeDay (y m d : Z) : Z :=
  let ym := y + m / 12 in
  let mn := m mod 12 in
  DayFromYear ym + daysBeforeMonth ym mn + d - 1.

(** The day number and the time value of a date. *)
Definition Day (dt : Date) : Z :=
  MakeDay (getFullYear dt) (getMonth dt) (getDate dt).

Definition getTime (dt : Date) : Z := Day dt * msPerDay + timeInDay dt.

Definition valid_fields (dt : Date) : Prop :=
  0 <= getMonth dt <= 11
  /\ 1 <= getDate dt <= daysInMonth (getFullYear dt) (getMonth dt)
  /\ 0 <= timeInDay dt < msPerDay.

(** A valid date that is, with the year after it, inside the range of time
    values a [Date] can hold (April -271821 to September 275760). *)
Definition valid_date (dt : Date) : Prop :=
  valid_fields dt /\ -271820 <= getFullYear dt <= 275758.

Definition nextMonth (y m : Z) : Z * Z :=
  if m =? 11 then (y + 1, 0) else (y, m + 1).

Definition prevMonth (y m : Z) : Z * Z :=
  if m =? 0 then (y - 1, 11) else (y, m - 1).

(** The calendar date of day [d] counted from the first of month [m] of
    year [y]: days past the end of a month roll into the next one, days
    before its first into the previous one. *)
Fixpoint rollDays (fuel : nat) (y m d : Z) : Z * Z * Z :=
  match fuel with
  | O => (y, m, d)
  | S k =>
      if d <? 1 then
        let '(y', m') := prevMonth y m in rollDays k y' m' (d + daysInMonth y' m')
      else if daysInMonth y m <? d then
        let '(y', m') := nextMonth y m in rollDays k y' m' (d - daysInMonth y m)
      else (y, m, d)
  end.

(** The date whose day number is [MakeDay y m d], at time [t] of the day. *)
Definition dateOfMakeDay (y m d t : Z) : Date :=
  let '(y', m', d') := rollDays (S (Z.to_nat (Z.abs d))) (y + m / 12) (m mod 12) d in
  {| getFullYear := y'; getMonth := m'; getDate := d'; timeInDay := t |}.

Definition setDate (dt : Date) (d : Z) : Date :=
  dateOfMakeDay (getFullYear dt) (getMonth dt) d (timeInDay dt).

Definition setMonth (dt : Date) (m : Z) : Date :=
  dateOfMakeDay (getFullYear dt) m (getDate dt) (timeInDay dt).

Definition setFullYear (dt : Date) (y : Z) : Date :=
  dateOfMakeDay y (getMonth dt) (getDate dt) (timeInDay dt).

Inductive RecurringInterval := DAILY | WEEKLY | MONTHLY | YEARLY.

(** [calculateNextRecurringDate(startDate, interval)]. *)
Definition calculateNextRecurringDate (startDate : Date) (interval : RecurringInterval)
  : Date :=
  let date := startDate in
  match interval with
  | DAILY => setDate date (getDate date + 1)
  | WEEKLY => setDate date (getDate date + 7)
  | MONTHLY => setMonth date (getMonth date + 1)
  | YEARLY => setFullYear date (getFullYear date + 1)
  end.

Definition mkDate (y m d : Z) : Date :=
  {| getFullYear := y; getMonth := m; getDate := d; timeInDay := 0 |}.

(* --------------------------------------------------------------------- *)
(** ** The store and the server actions                                   *)
(* --------------------------------------------------------------------- *)

Inductive TransactionType := INCOME | EXPENSE.

Definition TransactionType_eqb (a b : TransactionType) : bool :=
  match a, b with
  | INCOME, INCOME | EXPENSE, EXPENSE => true
  | _, _ => false
  end.

(** The [data] argument of [createTransaction] and [updateTransaction]:
    what the form submits. *)
Record TransactionData := {
  type : TransactionType;
  amount : Q;
  description : string;
  accountId : string;
  category : string;
  date : Date;
  isRecurring : bool;
  recurringInterval : option RecurringInterval
}.

(** A row of the transaction table. *)
Record Transaction := {
  id : string;
  userId : string;
  fields : TransactionData;
  nextRecurringDate : option Date
}.

Record Account := {
  account_id : string;
  account_userId : string;
  account_name : string;
  balance : Q;
  isDefault : bool
}.

Record User := {
  user_id : string;
  clerkUserId : string
}.

(** The relational store: users by their Clerk identifier, accounts and
    transactions by their primary key. *)
Record Db := {
  users : gmap string User;
  accounts : gmap string Account;
  transactions : gmap string Transaction
}.

Definition msg_unauthorized : string := "Unauthorized".
Definition msg_user_not_found : string := "User not found".
Definition msg_account_not_found : string := "Account not found".
Definition msg_transaction_not_found : string := "Transaction not found".
Definition msg_rate_limit : string := "Too many requests. Please try again later.".
Definition msg_blocked : string := "Request blocked".
(** The messages of the errors Prisma raises are its own; only that it
    raises matters below. *)
Definition msg_record_not_found : string := "Record to update not found.".
Definition msg_unique_constraint : string := "Unique constraint failed on the fields: (`id`)".
Definition msg_store_unreachable : string := "Can't reach database server".

(** [db.account.findUnique({ where: { id, userId } })]. *)
Definition account_findUnique (db : Db) (aid uid : string) : option Account :=
  match accounts db !! aid with
  | Some a => if String.eqb (account_userId a) uid then Some a else None
  | None => None
  end.

(** [db.transaction.findUnique({ where: { id, userId } })]. *)
Definition transaction_findUnique (db : Db) (tid uid : string) : option Transaction :=
  match transactions db !! tid with
  | Some t => if String.eqb (userId t) uid then Some t else None
  | None => None
  end.

Definition with_accounts (db : Db) (m : gmap string Account) : Db :=
  {| users := users db; accounts := m; transactions := transactions db |}.

Definition with_transactions (db : Db) (m : gmap string Transaction) : Db :=
  {| users := users db; accounts := accounts db; transactions := m |}.

Definition with_balance (a : Account) (b : Q) : Account :=
  {| account_id := account_id a; account_userId := account_userId a;
     account_name := account_name a; balance := b; isDefault := isDefault a |}.

(** A statement inside [db.$transaction]: it gives a result or raises, and
    leaves the store as it has written it so far. *)
Definition statement (A : Type) : Type := Db -> result A * Db.

(** [tx.transaction.create({ data })]; [newId] is the key the store gives
    the row. *)
Definition transaction_create (newId : string) (row : Transaction) : statement Transaction :=
  fun db =>
    match transactions db !! newId with
    | Some _ => (Throw msg_unique_constraint, db)
    | None => (Ok row, with_transactions db (<[newId := row]> (transactions db)))
    end.

(** [tx.transaction.update({ where: { id, userId }, data })]. *)
Definition transaction_update (tid uid : string) (change : Transaction -> Transaction)
  : statement Transaction :=
  fun db =>
    match transaction_findUnique db tid uid with
    | Some t =>
        (Ok (change t), with_transactions db (<[tid := change t]> (transactions db)))
    | None => (Throw msg_record_not_found, db)
    end.

(** [tx.account.update({ where: { id }, data: { balance } })], for a new
    balance computed from the stored one ([fun _ => b] sets it,
    [fun old => old + d] is [{ increment: d }]). *)
Definition account_update (aid : string) (newBalance : Q -> Q) : statement Account :=
  fun db =>
    match accounts db !! aid with
    | Some a =>
        let a' := with_balance a (newBalance (balance a)) in
        (Ok a', with_accounts db (<[aid := a']> (accounts db)))
    | None => (Throw msg_record_not_found, db)
    end.

Definition bind {A B : Type} (s : statement A) (k : A -> statement B) : statement B :=
  fun db =>
    match s db with
    | (Ok a, db') => k a db'
    | (Throw m, db') => (Throw m, db')
    end.

Definition ret {A : Type} (a : A) : statement A := fun db => (Ok a, db).

(** [db.$transaction(async (tx) => body)]: when the body raises, nothing it
    wrote is committed. *)
Definition db_transaction {A : Type} (body : statement A) : statement A :=
  fun db =>
    match body db with
    | (Ok a, db') => (Ok a, db')
    | (Throw m, _) => (Throw m, db)
    end.

(** The decision of the rate limiter ([aj.protect]). *)
Inductive Decision := Allowed | DeniedRateLimit | DeniedOther.

(** The signed amount of a transaction: [type === "EXPENSE" ? -amount : amount]. *)
Definition signed_amount (ty : TransactionType) (amt : Q) : Q :=
  match ty with
  | EXPENSE => (- amt)%Q
  | INCOME => amt
  end.

(** The [nextRecurringDate] column both actions write. *)
Definition nextRecurringDate_of (d : TransactionData) : option Date :=
  match isRecurring d, recurringInterval d with
  | true, Some interval => Some (calculateNextRecurringDate (date d) interval)
  | _, _ => None
  end.

(** What both actions resolve to: [{ success: true, data: transaction }]. *)
Record ActionResult := {
  result_success : bool;
  result_data : Transaction
}.

(** The two writes [createTransaction] asks of the store inside its
    database transaction. *)
Inductive Write := RowWrite | BalanceWrite.

(** A write the store does not carry out (the connection is lost, the
    statement times out) raises, with nothing written by it. *)
Definition attempt {A : Type} (carried_out : bool) (s : statement A) : statement A :=
  fun db => if carried_out then s db else (Throw msg_store_unreachable, db).

(** Lines 205-221, the body of the database transaction: the row, then the
    balance.  [store] says which of the two writes the store carries out. *)
Definition createTransaction_body (store : Write -> bool) (newId : string)
    (row : Transaction) (aid : string) (newBalance : Q) : statement Transaction :=
  bind (attempt (store RowWrite) (transaction_create newId row))
    (fun newTransaction =>
       bind (attempt (store BalanceWrite) (account_update aid (fun _ => newBalance)))
         (fun _ => ret newTransaction)).

(** [createTransaction(data)].  [auth] is the Clerk user the session
    belongs to, [decision] the answer of the rate limiter, [newId] the key
    the store gives the new row. *)
Definition createTransaction_on (store : Write -> bool) (auth : option string)
    (decision : Decision) (newId : string) (data : TransactionData)
  : statement ActionResult :=
  fun db =>
    match auth with
    | None => (Throw msg_unauthorized, db)
    | Some clerkId =>
        match decision with
        | DeniedRateLimit => (Throw msg_rate_limit, db)
        | DeniedOther => (Throw msg_blocked, db)
        | Allowed =>
            match users db !! clerkId with
            | None => (Throw msg_user_not_found, db)
            | Some user =>
                match account_findUnique db (accountId data) (user_id user) with
                | None => (Throw msg_account_not_found, db)
                | Some account =>
                    let balanceChange := signed_amount (type data) (amount data) in
                    let newBalance := (balance account + balanceChange)%Q in
                    let body :=
                      createTransaction_body store newId
                        {| id := newId; userId := user_id user; fields := data;
                           nextRecurringDate := nextRecurringDate_of data |}
                        (accountId data) newBalance in
                    match db_transaction body db with
                    | (Ok transaction, db') =>
                        (Ok {| result_success := true; result_data := transaction |}, db')
                    | (Throw m, db') => (Throw m, db')
                    end
                end
            end
        end
    end.

(** [createTransaction] against a store that carries out every write. *)
Definition store_up : Write -> bool := fun _ => true.

Definition createTransaction (auth : option string) (decision : Decision)
    (newId : string) (data : TransactionData) : statement ActionResult :=
  createTransaction_on store_up auth decision newId data.

(** [getTransaction(id)]. *)
Definition getTransaction (auth : option string) (tid : string) (db : Db)
  : result Transaction :=
  match auth with
  | None => Throw msg_unauthorized
  | Some clerkId =>
      match users db !! clerkId with
      | None => Throw msg_user_not_found
      | Some user =>
          match transaction_findUnique db tid (user_id user) with
          | None => Throw msg_transaction_not_found
          | Some transaction => Ok transaction
          end
      end
  end.

(** [updateTransaction(id, data)]. *)
Definition updateTransaction (auth : option string) (tid : string)
    (data : TransactionData) : statement ActionResult :=
  fun db =>
    match auth with
    | None => (Throw msg_unauthorized, db)
    | Some clerkId =>
        match users db !! clerkId with
        | None => (Throw msg_user_not_found, db)
        | Some user =>
            match transaction_findUnique db tid (user_id user) with
            | None => (Throw msg_transaction_not_found, db)
            | Some originalTransaction =>
                let oldBalanceChange :=
                  signed_amount (type (fields originalTransaction))
                    (amount (fields originalTransaction)) in
                let newBalanceChange := signed_amount (type data) (amount data) in
                let netBalanceChange := (newBalanceChange - oldBalanceChange)%Q in
                let body :=
                  bind (transaction_update tid (user_id user)
                          (fun t =>
                             {| id := id t; userId := userId t; fields := data;
                                nextRecurringDate := nextRecurringDate_of data |}))
                    (fun updated =>
                       bind (account_update (accountId data)
                               (fun old => (old + netBalanceChange)%Q))
                         (fun _ => ret updated)) in
                match db_transaction body db with
                | (Ok transaction, db') =>
                    (Ok {| result_success := true; result_data := transaction |}, db')
                | (Throw m, db') => (Throw m, db')
                end
            end
        end
    end.

(* --------------------------------------------------------------------- *)
(** ** The transaction form                                               *)
(* --------------------------------------------------------------------- *)

Record Category := {
  category_id : string;
  category_name : string;
  category_type : TransactionType
}.

(** The text of the amount input: what the user typed, or the decimal text
    of a number ([n.toString()]), which is kept as the number it prints. *)
Inductive AmountText :=
| Typed (s : string)
| NumberText (n : number).

(** The values react-hook-form holds.  [form_type] is [None] while the
    field is [undefined]. *)
Record FormValues := {
  form_type : option TransactionType;
  form_amount : AmountText;
  form_description : string;
  form_accountId : string;
  form_category : string;
  form_date : option Date;
  form_isRecurring : bool;
  form_recurringInterval : option RecurringInterval
}.

Inductive Toast :=
| toast_warning (message : string)
| toast_error (message : string)
| toast_success (message : string).

(** The props of [AddTransactionForm]. *)
Record Props := {
  props_accounts : list Account;
  categories : list Category;
  editMode : bool;
  initialData : option Transaction
}.

(** The component between two events: the form values, the two refs, the
    [type] the last render saw (the dependency of the effect), the drafts of
    the [setTimeout] callbacks not yet run (oldest first) and the toasts
    shown so far (oldest first). *)
Record Component := {
  values : FormValues;
  isProcessingScan : bool;
  prevTypeRef : option TransactionType;
  renderedType : option TransactionType;
  timers : list value;
  toasts : list Toast
}.

Definition option_type_eqb (a b : option TransactionType) : bool :=
  match a, b with
  | Some x, Some y => TransactionType_eqb x y
  | None, None => true
  | _, _ => false
  end.

Definition with_values (st : Component) (v : FormValues) : Component :=
  {| values := v; isProcessingScan := isProcessingScan st;
     prevTypeRef := prevTypeRef st; renderedType := renderedType st;
     timers := timers st; toasts := toasts st |}.

Definition with_flag (st : Component) (b : bool) : Component :=
  {| values := values st; isProcessingScan := b;
     prevTypeRef := prevTypeRef st; renderedType := renderedType st;
     timers := timers st; toasts := toasts st |}.

Definition toast (st : Component) (t : Toast) : Component :=
  {| values := values st; isProcessingScan := isProcessingScan st;
     prevTypeRef := prevTypeRef st; renderedType := renderedType st;
     timers := timers st; toasts := toasts st ++ [t] |}.

Definition setTimeout (st : Component) (scannedData : value) : Component :=
  {| values := values st; isProcessingScan := isProcessingScan st;
     prevTypeRef := prevTypeRef st; renderedType := renderedType st;
     timers := timers st ++ [scannedData]; toasts := toasts st |}.

Definition setValue_type (t : TransactionType) (st : Component) : Component :=
  with_values st
    {| form_type := Some t; form_amount := form_amount (values st);
       form_description := form_description (values st);
       form_accountId := form_accountId (values st);
       form_category := form_category (values st);
       form_date := form_date (values st);
       form_isRecurring := form_isRecurring (values st);
       form_recurringInterval := form_recurringInterval (values st) |}.

Definition setValue_amount (a : AmountText) (st : Component) : Component :=
  with_values st
    {| form_type := form_type (values st); form_amount := a;
       form_description := form_description (values st);
       form_accountId := form_accountId (values st);
       form_category := form_category (values st);
       form_date := form_date (values st);
       form_isRecurring := form_isRecurring (values st);
       form_recurringInterval := form_recurringInterval (values st) |}.

Definition setValue_description (s : string) (st : Component) : Component :=
  with_values st
    {| form_type := form_type (values st); form_amount := form_amount (values st);
       form_description := s;
       form_accountId := form_accountId (values st);
       form_category := form_category (values st);
       form_date := form_date (values st);
       form_isRecurring := form_isRecurring (values st);
       form_recurringInterval := form_recurringInterval (values st) |}.

Definition setValue_accountId (s : string) (st : Component) : Component :=
  with_values st
    {| form_type := form_type (values st); form_amount := form_amount (values st);
       form_description := form_description (values st);
       form_accountId := s;
       form_category := form_category (values st);
       form_date := form_date (values st);
       form_isRecurring := form_isRecurring (values st);
       form_recurringInterval := form_recurringInterval (values st) |}.

Definition setValue_category (s : string) (st : Component) : Component :=
  with_values st
    {| form_type := form_type (values st); form_amount := form_amount (values st);
       form_description := form_description (values st);
       form_accountId := form_accountId (values st);
       form_category := s;
       form_date := form_date (values st);
       form_isRecurring := form_isRecurring (values st);
       form_recurringInterval := form_recurringInterval (values st) |}.

Definition setValue_date (d : Date) (st : Component) : Component :=
  with_values st
    {| form_type := form_type (values st); form_amount := form_amount (values st);
       form_description := form_description (values st);
       form_accountId := form_accountId (values st);
       form_category := form_category (values st);
       form_date := Some d;
       form_isRecurring := form_isRecurring (values st);
       form_recurringInterval := form_recurringInterval (values st) |}.

Definition setValue_isRecurring (b : bool) (st : Component) : Component :=
  with_values st
    {| form_type := form_type (values st); form_amount := form_amount (values st);
       form_description := form_description (values st);
       form_accountId := form_accountId (values st);
       form_category := form_category (values st);
       form_date := form_date (values st);
       form_isRecurring := b;
       form_recurringInterval := form_recurringInterval (values st) |}.

Definition setValue_recurringInterval (i : RecurringInterval) (st : Component) : Component :=
  with_values st
    {| form_type := form_type (values st); form_amount := form_amount (values st);
       form_description := form_description (values st);
       form_accountId := form_accountId (values st);
       form_category := form_category (values st);
       form_date := form_date (values st);
       form_isRecurring := form_isRecurring (values st);
       form_recurringInterval := Some i |}.

(** [typeof x === 'object']. *)
Definition typeof_object (v : value) : bool :=
  match v with
  | VNull | VArray _ | VObject _ => true
  | _ => false
  end.

(** [x && x.trim() !== ], for a property read off a draft: a value that is
    truthy and no string has no [trim] to call, and the call raises. *)
Definition nonblank (v : value) : result bool :=
  if ToBoolean v then
    match v with
    | VString s => Ok (negb (String.eqb (trim s) EmptyString))
    | _ => Throw "scannedData.trim is not a function"
    end
  else Ok false.

(** Lines 166-168: the first EXPENSE category whose name is the suggestion,
    letter case aside. *)
Definition foundCategory (cats : list Category) (suggestion : string) : option Category :=
  let categoryName := toLowerCase suggestion in
  List.find
    (fun cat =>
       String.eqb (toLowerCase (category_name cat)) categoryName
       && TransactionType_eqb (category_type cat) EXPENSE)
    cats.

Definition msg_autofill_amount : string :=
  "Could not auto-fill amount. Please enter manually.".
Definition msg_extract_amount : string := "Could not extract amount from receipt".
Definition msg_extract_category : string :=
  "Could not extract category from receipt. Please select manually.".
Definition msg_processing_error : string :=
  "Error processing receipt data. Please enter manually.".
Definition msg_unmatched_category (suggestion : string) : string :=
  String.append "Could not match category "
    (String "034" (String.append suggestion (String "034" ". Please select manually."))).

(** The body of the [try] block of [handleScanComplete] (lines 113-185):
    the state as written so far, and whether the block raised. *)
Definition applyDraft (Date_new : value -> option Date) (scannedData : value)
    (st : Component) : Component * bool :=
  if negb (typeof_object scannedData) then (st, true)
  else
    (* Set amount *)
    let st1 :=
      match get scannedData "amount" with
      | VUndefined | VNull => toast st (toast_warning msg_extract_amount)
      | a =>
          let amount := parseFloat a in
          if negb (isNaN amount) && gt_zero amount
          then setValue_amount (NumberText amount) st
          else toast st (toast_warning msg_autofill_amount)
      end in
    (* Set date *)
    let st2 :=
      if ToBoolean (get scannedData "date") then
        match Date_new (get scannedData "date") with
        | Some date => setValue_date date st1
        | None => st1
        end
      else st1 in
    (* Set description *)
    match nonblank (get scannedData "description") with
    | Throw _ => (st2, true)
    | Ok filled =>
        let st3 :=
          if filled then
            match get scannedData "description" with
            | VString s => setValue_description s st2
            | _ => st2
            end
          else st2 in
        (* Always set type to EXPENSE for receipts first *)
        let st4 := setValue_type EXPENSE st3 in
        (setTimeout st4 scannedData, false)
    end.

(** [handleScanComplete(scannedData)]. *)
Definition handleScanComplete (Date_new : value -> option Date) (scannedData : value)
    (st : Component) : Component :=
  if negb (ToBoolean scannedData) || isProcessingScan st then st
  else
    let '(st', raised) := applyDraft Date_new scannedData (with_flag st true) in
    if raised
    then with_flag (toast st' (toast_error msg_processing_error)) false
    else st'.

(** The callback given to [setTimeout] (lines 163-185), for the draft it
    closes over.  When it raises, what follows the raising call is not run. *)
Definition timerCallback (props : Props) (scannedData : value) (st : Component)
  : Component :=
  match nonblank (get scannedData "category") with
  | Throw _ => st
  | Ok true =>
      match get scannedData "category" with
      | VString suggestion =>
          match foundCategory (categories props) suggestion with
          | Some cat => with_flag (setValue_category (category_id cat) st) false
          | None =>
              with_flag
                (toast (setValue_category EmptyString st)
                   (toast_warning (msg_unmatched_category suggestion)))
                false
          end
      | _ => st
      end
  | Ok false =>
      with_flag
        (toast (setValue_category EmptyString st) (toast_warning msg_extract_category))
        false
  end.

(** The effect of lines 212-217, run after a render in which [type] is the
    watched value. *)
Definition typeEffect (st : Component) : Component :=
  let type := form_type (values st) in
  let st' :=
    if negb (isProcessingScan st)
       && negb (option_type_eqb (prevTypeRef st) type)
       && negb (option_type_eqb (prevTypeRef st) None)
    then setValue_category EmptyString st
    else st in
  {| values := values st'; isProcessingScan := isProcessingScan st';
     prevTypeRef := type; renderedType := renderedType st';
     timers := timers st'; toasts := toasts st' |}.

(** A render: the effect runs when [type] is not what the previous render
    saw. *)
Definition render (st : Component) : Component :=
  if option_type_eqb (renderedType st) (form_type (values st)) then st
  else
    typeEffect
      {| values := values st; isProcessingScan := isProcessingScan st;
         prevTypeRef := prevTypeRef st; renderedType := form_type (values st);
         timers := timers st; toasts := toasts st |}.

(** [defaultValues] (lines 45-69); [now] is [new Date()]. *)
Definition defaultValues (props : Props) (now : Date) : FormValues :=
  match editMode props, initialData props with
  | true, Some t =>
      {| form_type := Some (type (fields t));
         form_amount := NumberText (Finite (amount (fields t)));
         form_description := description (fields t);
         form_accountId := accountId (fields t);
         form_category := category (fields t);
         form_date := Some (date (fields t));
         form_isRecurring := isRecurring (fields t);
         form_recurringInterval := recurringInterval (fields t) |}
  | _, _ =>
      {| form_type := Some EXPENSE;
         form_amount := Typed EmptyString;
         form_description := EmptyString;
         form_accountId :=
           match List.find isDefault (props_accounts props) with
           | Some ac => account_id ac
           | None => EmptyString
           end;
         form_category := EmptyString;
         form_date := Some now;
         form_isRecurring := false;
         form_recurringInterval := None |}
  end.

(** The component after its first render and the effects of the mount. *)
Definition mount (props : Props) (now : Date) : Component :=
  let v := defaultValues props now in
  typeEffect
    {| values := v; isProcessingScan := false;
       prevTypeRef := form_type v; renderedType := form_type v;
       timers := []; toasts := [] |}.

(** What happens to the mounted form. *)
Inductive Event :=
| ScanComplete (scannedData : value)   (* the scanner calls [onScanComplete] *)
| TimerFires                           (* the oldest pending timer runs *)
| SelectType (t : TransactionType)
| InputAmount (s : string)
| SelectAccount (a : string)
| SelectCategory (c : string)
| SelectDate (d : Date)
| InputDescription (s : string)
| ToggleRecurring (b : bool)
| SelectInterval (i : RecurringInterval).

Definition handle (props : Props) (Date_new : value -> option Date) (e : Event)
    (st : Component) : Component :=
  match e with
  | ScanComplete scannedData => handleScanComplete Date_new scannedData st
  | TimerFires =>
      match timers st with
      | [] => st
      | scannedData :: rest =>
          timerCallback props scannedData
            {| values := values st; isProcessingScan := isProcessingScan st;
               prevTypeRef := prevTypeRef st; renderedType := renderedType st;
               timers := rest; toasts := toasts st |}
      end
  | SelectType t => setValue_type t st
  | InputAmount s => setValue_amount (Typed s) st
  | SelectAccount a => setValue_accountId a st
  | SelectCategory c => setValue_category c st
  | SelectDate d => setValue_date d st
  | InputDescription s => setValue_description s st
  | ToggleRecurring b => setValue_isRecurring b st
  | SelectInterval i => setValue_recurringInterval i st
  end.

(** One event: its handler, then the render it causes and that render's
    effects, which React runs before it takes up the next event. *)
Definition step (props : Props) (Date_new : value -> option Date) (e : Event)
    (st : Component) : Component :=
  render (handle props Date_new e st).

Definition run (props : Props) (Date_new : value -> option Date) (es : list Event)
    (st : Component) : Component :=
  fold_left (fun s e => step props Date_new e s) es st.



(** The states the mounted form can be in. *)
Inductive reachable (props : Props) (Date_new : value -> option Date) (now : Date)
  : Component -> Prop :=
| reachable_mount : reachable props Date_new now (mount props now)
| reachable_step e st :
    reachable props Date_new now st ->
    reachable props Date_new now (step props Date_new e st).

(* --------------------------------------------------------------------- *)
(** ** The receipt scanner                                                *)
(* --------------------------------------------------------------------- *)

(** [ReceiptScanner] between two events: what [useFetch(scanReceipt)]
    currently reports ([data], [loading], the message of [error]) and the
    [hasShownToastRef] ref. *)
Record Scanner := {
  scannedData : option ScanResult;
  scanReceiptLoading : bool;
  scanError : option string;
  hasShownToastRef : bool
}.

Definition with_shown (sc : Scanner) (b : bool) : Scanner :=
  {| scannedData := scannedData sc; scanReceiptLoading := scanReceiptLoading sc;
     scanError := scanError sc; hasShownToastRef := b |}.

Definition maxFileSize : Z := 5 * 1024 * 1024.

(** [handleReceiptScan(file)]: the scanner after it, the toasts it shows,
    and whether [scanReceiptFn(file)] is called. *)
Definition handleReceiptScan (file : ReceiptFile) (sc : Scanner)
  : Scanner * list Toast * bool :=
  let sc' := with_shown sc false in
  if maxFileSize <? file_size file
  then (sc', [toast_error "File size should be less than 5MB"], false)
  else if negb (startsWith (file_type file) "image/")
  then (sc', [toast_error "Please upload an image file"], false)
  else (sc', [], true).

(** The effect of lines 480-495 ("handle successful scan"): the scanner
    after it, the toasts it shows, and the draft it hands to
    [onScanComplete], if any. *)
Definition successEffect (sc : Scanner) : Scanner * list Toast * option value :=
  match scannedData sc with
  | Some r =>
      if negb (scanReceiptLoading sc) && negb (hasShownToastRef sc) then
        if scan_success r && ToBoolean (scan_data r)
        then (with_shown sc true, [toast_success "Receipt scanned successfully!"],
              Some (scan_data r))
        else (with_shown sc true, [toast_error "Failed to extract data from receipt"],
              None)
      else (sc, [], None)
  | None => (sc, [], None)
  end.

(** The effect of lines 498-504 ("handle scan error"). *)
Definition errorEffect (sc : Scanner) : Scanner * list Toast :=
  match scanError sc with
  | Some message =>
      if negb (scanReceiptLoading sc) && negb (hasShownToastRef sc) then
        (with_shown sc true,
         [toast_error
            (match message with
             | EmptyString => "Failed to scan receipt. Please try again or enter manually."
             | _ => message
             end)])
      else (sc, [])
  | None => (sc, [])
  end.

(** Both effects, in the order the component declares them. *)
Definition scannerEffects (sc : Scanner) : Scanner * list Toast * option value :=
  let '(sc1, ts1, delivered) := successEffect sc in
  let '(sc2, ts2) := errorEffect sc1 in
  (sc2, (ts1 ++ ts2)%list, delivered).

(* ===================================================================== *)
(** * Properties                                                          *)
(* ===================================================================== *)

(* --------------------------------------------------------------------- *)
(** ** Objects                                                            *)
(* --------------------------------------------------------------------- *)

Lemma assoc_get_set_eq fields k v : assoc_get (assoc_set fields k v) k = v.
Proof.
  induction fields as [|[k' v'] rest IH]; simpl.
  - by rewrite String.eqb_refl.
  - destruct (String.eqb k' k) eqn:E; simpl.
    + by rewrite String.eqb_refl.
    + by rewrite E.
Qed.

Lemma assoc_get_set_ne fields k k' v :
  k <> k' -> assoc_get (assoc_set fields k v) k' = assoc_get fields k'.
Proof.
  intros Hne. induction fields as [|[k0 v0] rest IH]; simpl.
  - destruct (String.eqb k k') eqn:E; [|done].
    apply String.eqb_eq in E. contradiction.
  - destruct (String.eqb k0 k) eqn:E; simpl.
    + apply String.eqb_eq in E. subst k0.
      destruct (String.eqb k k') eqn:E'; [|done].
      apply String.eqb_eq in E'. contradiction.
    + by rewrite IH.
Qed.

Lemma get_set_eq fields k v : get (set (VObject fields) k v) k = v.
Proof. apply assoc_get_set_eq. Qed.

Lemma get_set_ne fields k k' v :
  k <> k' -> get (set (VObject fields) k v) k' = get (VObject fields) k'.
Proof. apply assoc_get_set_ne. Qed.

(** A value the first date check replaces is one the pattern rejects. *)
Lemma dateRegex_test_falsy v :
  negb (ToBoolean v) || is_empty_string v = true -> dateRegex_test v = false.
Proof.
  destruct v as [| |b|n|s|items|fs]; simpl; try done.
  destruct s; [done | simpl; discriminate].
Qed.

Lemma empty_string_falsy v : is_empty_string v = true -> ToBoolean v = false.
Proof.
  destruct v; simpl; try discriminate. intros ->. done.
Qed.

(** What cannot be printed is an object or an array with one inside: it is
    truthy, and no date pattern matches it. *)
Lemma falsy_printable v : ToBoolean v = false -> unprintable v = false.
Proof. by destruct v. Qed.

Lemma dateRegex_test_printable :
  forall v, dateRegex_test v = true -> unprintable v = false.
Proof.
  fix IH 1. intros [| |b|n|s|items|fs]; simpl; try done.
  destruct items as [|x [|y rest]]; try done.
  intros H. simpl. by rewrite (IH x H).
Qed.

(** [normalize] on an object, with its outcomes spelled out: the amount the
    checks of lines 104-113 let through, and the drafts that get past the
    pattern test of line 122. *)
Definition amount_accepted (amount : value) : bool :=
  ToBoolean amount && negb (unprintable amount)
  && negb (le_zero (ToNumber amount)) && negb (isNaN (parseFloat amount)).

Definition draft_accepted (o : value) : bool :=
  amount_accepted (get o "amount") && negb (unprintable (get o "date")).

Definition normalized_date (today : string) (date : value) : value :=
  if dateRegex_test date then date else VString today.

Definition normalized_description (description : value) : value :=
  if ToBoolean description then description else VString placeholder_description.

Definition normalized_category (category : value) : value :=
  if ToBoolean category then category else VString EmptyString.

Lemma assoc_set_set fields k v w :
  assoc_set (assoc_set fields k v) k w = assoc_set fields k w.
Proof.
  induction fields as [|[k' v'] rest IH]; simpl.
  - by rewrite String.eqb_refl.
  - destruct (String.eqb k' k) eqn:E; simpl.
    + by rewrite String.eqb_refl.
    + by rewrite E, IH.
Qed.

Lemma assoc_set_get fields k :
  assoc_get fields k <> VUndefined -> assoc_set fields k (assoc_get fields k) = fields.
Proof.
  induction fields as [|[k' v'] rest IH]; simpl; [done|].
  destruct (String.eqb k' k) eqn:E.
  - apply String.eqb_eq in E. by subst.
  - intros H. by rewrite IH.
Qed.

Lemma set_get_truthy fields k :
  ToBoolean (get (VObject fields) k) = true ->
  set (VObject fields) k (get (VObject fields) k) = VObject fields.
Proof.
  intros H. simpl. rewrite assoc_set_get; [done|].
  simpl in H. intros E. by rewrite E in H.
Qed.

Lemma set_object fields k v : set (VObject fields) k v = VObject (assoc_set fields k v).
Proof. done. Qed.

(** The two date checks of lines 116-124 together. *)
Lemma date_default today fields :
  let p1 := VObject fields in
  let p2 :=
    if negb (ToBoolean (get p1 "date")) || is_empty_string (get p1 "date")
    then set p1 "date" (VString today) else p1 in
  (if negb (dateRegex_test (get p2 "date")) then set p2 "date" (VString today) else p2)
  = set p1 "date" (normalized_date today (get p1 "date")).
Proof.
  cbv zeta. unfold normalized_date.
  destruct (negb (ToBoolean (get (VObject fields) "date"))
            || is_empty_string (get (VObject fields) "date")) eqn:C1.
  - rewrite (dateRegex_test_falsy _ C1). rewrite get_set_eq.
    destruct (dateRegex_test (VString today)); simpl; [done|].
    by rewrite assoc_set_set.
  - destruct (dateRegex_test (get (VObject fields) "date")) eqn:C2; simpl; [|done].
    apply orb_false_iff in C1 as [C1 _]. apply negb_false_iff in C1.
    symmetry. by apply set_get_truthy.
Qed.

Lemma description_default fields :
  let p3 := VObject fields in
  (if negb (ToBoolean (get p3 "description")) || is_empty_string (get p3 "description")
   then set p3 "description" (VString placeholder_description) else p3)
  = set p3 "description" (normalized_description (get p3 "description")).
Proof.
  cbv zeta. unfold normalized_description.
  destruct (ToBoolean (get (VObject fields) "description")) eqn:C; simpl negb.
  - destruct (is_empty_string _) eqn:E.
    + apply empty_string_falsy in E. congruence.
    + simpl orb. symmetry. by apply set_get_truthy.
  - done.
Qed.

(** The first date check of lines 116-118 leaves a date that raises as it
    is. *)
Lemma first_date_check today fields :
  let p1 := VObject fields in
  let p2 :=
    if negb (ToBoolean (get p1 "date")) || is_empty_string (get p1 "date")
    then set p1 "date" (VString today) else p1 in
  unprintable (get p2 "date") = unprintable (get p1 "date").
Proof.
  cbv zeta.
  destruct (negb (ToBoolean (get (VObject fields) "date"))
            || is_empty_string (get (VObject fields) "date")) eqn:C; [|done].
  rewrite get_set_eq. simpl. symmetry. apply falsy_printable.
  apply orb_true_iff in C as [C|C].
  - by apply negb_true_iff in C.
  - by apply empty_string_falsy.
Qed.

Lemma normalize_object today fields :
  normalize today (VObject fields) =
    let o := VObject fields in
    let amount := get o "amount" in
    if negb (ToBoolean amount) then Throw msg_no_amount
    else if unprintable amount then Throw msg_cannot_convert
    else if le_zero (ToNumber amount) then Throw msg_no_amount
    else if isNaN (parseFloat amount) then Throw msg_invalid_amount
    else if unprintable (get o "date") then Throw msg_cannot_convert
    else Ok (set (set (set (set o "amount" (VNumber (parseFloat amount)))
                         "date" (normalized_date today (get o "date")))
                    "description" (normalized_description (get o "description")))
               "category" (normalized_category (get o "category"))).
Proof.
  unfold normalize, coerce. cbv zeta.
  destruct (negb (ToBoolean _)); [done|].
  destruct (unprintable (get (VObject fields) "amount")); [done|].
  destruct (le_zero _); [done|].
  destruct (isNaN _); [done|].
  rewrite (set_object fields "amount"), first_date_check.
  replace (get (VObject (assoc_set fields "amount"
                           (VNumber (parseFloat (get (VObject fields) "amount")))))
             "date")
    with (get (VObject fields) "date")
    by (unfold get; by rewrite assoc_get_set_ne by done).
  destruct (unprintable (get (VObject fields) "date")); [done|].
  f_equal.
  replace (get (VObject fields) "date")
    with (get (VObject (assoc_set fields "amount"
                          (VNumber (parseFloat (get (VObject fields) "amount")))))
            "date")
    by (unfold get; by rewrite assoc_get_set_ne by done).
  rewrite date_default, set_object.
  rewrite description_default, !set_object.
  unfold get. by rewrite !assoc_get_set_ne by done.
Qed.

Lemma draft_accepted_spec o :
  draft_accepted o =
    let amount := get o "amount" in
    negb (negb (ToBoolean amount)) && negb (unprintable amount)
    && negb (le_zero (ToNumber amount)) && negb (isNaN (parseFloat amount))
    && negb (unprintable (get o "date")).
Proof.
  unfold draft_accepted, amount_accepted. cbv zeta.
  by destruct (ToBoolean (get o "amount")).
Qed.

(** What a successful normalisation returns, field by field. *)
Lemma normalize_ok today fields d :
  normalize today (VObject fields) = Ok d ->
  draft_accepted (VObject fields) = true
  /\ get d "amount" = VNumber (parseFloat (get (VObject fields) "amount"))
  /\ get d "date" = normalized_date today (get (VObject fields) "date")
  /\ get d "description" = normalized_description (get (VObject fields) "description")
  /\ get d "category" = normalized_category (get (VObject fields) "category").
Proof.
  rewrite normalize_object, draft_accepted_spec. cbv zeta.
  destruct (negb (ToBoolean _)); [done|].
  destruct (unprintable (get (VObject fields) "amount")); [done|].
  destruct (le_zero _); [done|].
  destruct (isNaN _); [done|].
  destruct (unprintable (get (VObject fields) "date")); [done|].
  intros [= <-]. rewrite ?set_object. unfold get.
  split; [done|].
  repeat split;
    repeat first [ rewrite assoc_get_set_eq | rewrite assoc_get_set_ne by done ]; done.
Qed.

Lemma normalize_throw today fields m :
  normalize today (VObject fields) = Throw m ->
  draft_accepted (VObject fields) = false
  /\ (m = msg_no_amount \/ m = msg_invalid_amount \/ m = msg_cannot_convert).
Proof.
  rewrite normalize_object, draft_accepted_spec. cbv zeta.
  destruct (negb (ToBoolean _)); [intros [= <-]; auto|].
  destruct (unprintable (get (VObject fields) "amount")); [intros [= <-]; auto|].
  destruct (le_zero _); [intros [= <-]; auto|].
  destruct (isNaN _); [intros [= <-]; auto|].
  destruct (unprintable (get (VObject fields) "date")); [intros [= <-]; auto|done].
Qed.

Definition is_ok {A : Type} (r : result A) : bool :=
  match r with Ok _ => true | Throw _ => false end.

Lemma normalize_is_ok today fields :
  is_ok (normalize today (VObject fields)) = draft_accepted (VObject fields).
Proof.
  rewrite normalize_object, draft_accepted_spec. cbv zeta.
  destruct (negb (ToBoolean _)); [done|].
  destruct (unprintable (get (VObject fields) "amount")); [done|].
  destruct (le_zero _); [done|].
  destruct (isNaN _); [done|].
  by destruct (unprintable (get (VObject fields) "date")).
Qed.





Definition q (n : Z) : value := VNumber (Finite (inject_Z n)).








(** C9, counterexample: a description of three spaces is kept; the
    placeholder is not substituted. *)
Lemma normalize_keeps_blank_description :
  exists d,
    normalize "2025-06-01"
      (VObject [("amount", q 12); ("description", VString "   ");
                ("date", VString "2025-05-30"); ("category", VString "Food")])
    = Ok d
    /\ get d "description" = VString "   "
    /\ trim "   " = EmptyString
    /\ get d "description" <> VString "Receipt Transaction".
Proof. eexists. split; [reflexivity|]. repeat split; done. Qed.

(** C9, as the code has it: a description that is absent or falsy ([null],
    [false], 0, the empty string) becomes the placeholder, every other
    description is kept as it is, without trimming; and whether
    normalisation succeeds does not depend on the description. *)
Theorem normalize_description today fields d :
  normalize today (VObject fields) = Ok d ->
  get d "description" =
    (if ToBoolean (get (VObject fields) "description")
     then get (VObject fields) "description"
     else VString "Receipt Transaction")
  /\ forall v,
       is_ok (normalize today (set (VObject fields) "description" v)) = true.
Proof.
  intros H. split.
  - by apply normalize_ok in H as (_ & _ & _ & -> & _).
  - intros v. rewrite set_object, normalize_is_ok.
    unfold draft_accepted, get. rewrite !assoc_get_set_ne by done.
    apply normalize_ok in H as [H _]. exact H.
Qed.

Lemma normalize_description_witness :
  exists d,
    normalize "2025-06-01" (VObject [("amount", q 12)]) = Ok d
    /\ get d "description" = VString "Receipt Transaction".
Proof.
  eexists. split; [reflexivity|].
  apply (normalize_description "2025-06-01" [("amount", q 12)] _ eq_refl).
Defined.

(** C10: the date is checked against the ten-character pattern only.  A
    date the pattern accepts is kept as it is, whether or not the calendar
    has it; any other date, absent and empty included, becomes [today]. *)
Theorem normalize_date_pattern_only today fields d :
  normalize today (VObject fields) = Ok d ->
  (forall s, get (VObject fields) "date" = VString s ->
             dateRegex_match s = true -> get d "date" = VString s)
  /\ (dateRegex_test (get (VObject fields) "date") = false ->
      get d "date" = VString today)
  /\ (ToBoolean (get (VObject fields) "date") = false ->
      get d "date" = VString today)
  /\ dateRegex_match "2024-99-99" = true.
Proof.
  intros H. apply normalize_ok in H as (_ & _ & Hd & _). rewrite Hd.
  unfold normalized_date. repeat split.
  - intros s -> Hs. simpl. by rewrite Hs.
  - by intros ->.
  - intros Hf. rewrite dateRegex_test_falsy; [done|]. by rewrite Hf.
Qed.

Lemma normalize_date_pattern_only_witness :
  exists d,
    normalize "2025-06-01"
      (VObject [("amount", q 12); ("date", VString "2024-99-99")]) = Ok d
    /\ get d "date" = VString "2024-99-99".
Proof.
  eexists. split; [reflexivity|].
  apply (normalize_date_pattern_only "2025-06-01"
           [("amount", q 12); ("date", VString "2024-99-99")] _ eq_refl);
    reflexivity.
Defined.

(* --------------------------------------------------------------------- *)
(** ** The form                                                           *)
(* --------------------------------------------------------------------- *)

(** Between two events the effect has caught up with the form: the last
    render and [prevTypeRef] both hold the current [type], which is set. *)
Definition settled (st : Component) : Prop :=
  renderedType st = form_type (values st)
  /\ prevTypeRef st = form_type (values st)
  /\ form_type (values st) <> None.

(** A draft field the handler can read: a string, or nothing truthy. *)
Definition text_or_falsy (v : value) : bool :=
  match v with
  | VString _ => true
  | _ => negb (ToBoolean v)
  end.

Lemma option_type_eqb_eq a b : option_type_eqb a b = true <-> a = b.
Proof. destruct a as [[]|], b as [[]|]; simpl; split; congruence. Qed.

Lemma option_type_eqb_refl a : option_type_eqb a a = true.
Proof. by apply option_type_eqb_eq. Qed.

Lemma render_settled st :
  renderedType st = form_type (values st) -> render st = st.
Proof. intros H. unfold render. by rewrite H, option_type_eqb_refl. Qed.

Lemma nonblank_text v :
  text_or_falsy v = true ->
  nonblank v = Ok (match v with
                   | VString s => negb (String.eqb (trim s) EmptyString)
                   | _ => false
                   end).
Proof.
  unfold nonblank, text_or_falsy. destruct v as [| |b|n|s|items|fs]; simpl; try done.
  - by destruct b.
  - destruct n as [|neg|x]; simpl; try done. by destruct (Qeq_bool x 0).
  - destruct s; simpl; [done|]. done.
Qed.

(** What the [try] block leaves behind when it does not raise. *)
Lemma applyDraft_done Date_new d st :
  typeof_object d = true ->
  text_or_falsy (get d "description") = true ->
  exists st',
    applyDraft Date_new d st = (st', false)
    /\ form_type (values st') = Some EXPENSE
    /\ form_category (values st') = form_category (values st)
    /\ timers st' = (timers st ++ [d])%list
    /\ isProcessingScan st' = isProcessingScan st
    /\ prevTypeRef st' = prevTypeRef st
    /\ renderedType st' = renderedType st.
Proof.
  intros Hobj Htext. unfold applyDraft. rewrite Hobj, (nonblank_text _ Htext). simpl negb.
  cbv iota. eexists. split; [reflexivity|].
  repeat split; simpl;
    repeat (case_match; simpl; try done).
Qed.

Lemma typeEffect_flagged st :
  isProcessingScan st = true ->
  typeEffect st =
    {| values := values st; isProcessingScan := true;
       prevTypeRef := form_type (values st); renderedType := renderedType st;
       timers := timers st; toasts := toasts st |}.
Proof. intros H. unfold typeEffect. rewrite H. simpl. by rewrite H. Qed.

(** Every event leaves the component settled. *)
Lemma handle_type_set props Date_new e st :
  form_type (values st) <> None ->
  form_type (values (handle props Date_new e st)) <> None.
Proof.
  intros H. destruct e; simpl; try done.
  - unfold handleScanComplete. destruct (negb _ || _); [done|].
    unfold applyDraft. simpl.
    repeat (case_match; simpl; try done); simplify_eq; simpl; try done.
  - destruct (timers st) as [|d rest]; [done|].
    unfold timerCallback. repeat (case_match; simpl; try done).
Qed.

Lemma handle_refs props Date_new e st :
  prevTypeRef (handle props Date_new e st) = prevTypeRef st
  /\ renderedType (handle props Date_new e st) = renderedType st.
Proof.
  destruct e; simpl; try done.
  - unfold handleScanComplete. destruct (negb _ || _); [done|].
    unfold applyDraft. simpl.
    repeat (case_match; simpl; try done); simplify_eq; simpl; try done.
  - destruct (timers st) as [|d rest]; [done|].
    unfold timerCallback. repeat (case_match; simpl; try done).
Qed.

Lemma render_makes_settled st :
  prevTypeRef st = renderedType st ->
  form_type (values st) <> None ->
  settled (render st).
Proof.
  intros Hp Hty. unfold render, settled.
  destruct (option_type_eqb _ _) eqn:E.
  - apply option_type_eqb_eq in E. rewrite Hp. done.
  - unfold typeEffect. simpl. repeat split; try done; by case_match.
Qed.

Lemma step_settled props Date_new e st :
  settled st -> settled (step props Date_new e st).
Proof.
  intros (Hr & Hp & Hty). unfold step.
  destruct (handle_refs props Date_new e st) as [Hp' Hr'].
  apply render_makes_settled.
  - congruence.
  - by apply handle_type_set.
Qed.

Lemma mount_settled props now : settled (mount props now).
Proof.
  unfold mount, settled, typeEffect, defaultValues. simpl.
  rewrite option_type_eqb_refl. simpl.
  repeat (case_match; simpl; try done).
Qed.


(** The category the timer callback writes for a suggestion, and the
    advisory it shows with it. *)
Definition resolved_category (cats : list Category) (suggestion : value)
  : string * option Toast :=
  match suggestion with
  | VString s =>
      if String.eqb (trim s) EmptyString
      then (EmptyString, Some (toast_warning msg_extract_category))
      else match foundCategory cats s with
           | Some cat => (category_id cat, None)
           | None => (EmptyString, Some (toast_warning (msg_unmatched_category s)))
           end
  | _ => (EmptyString, Some (toast_warning msg_extract_category))
  end.

Lemma timerCallback_text props d st :
  text_or_falsy (get d "category") = true ->
  let r := resolved_category (categories props) (get d "category") in
  timerCallback props d st =
    with_flag
      (match snd r with
       | Some t => toast (setValue_category (fst r) st) t
       | None => setValue_category (fst r) st
       end)
      false.
Proof.
  intros Htext. unfold timerCallback, resolved_category.
  rewrite (nonblank_text _ Htext).
  destruct (get d "category") as [| |b|n|s|items|fs]; simpl; try done.
  destruct (String.eqb (trim s) EmptyString); simpl; [done|].
  by destruct (foundCategory _ _).
Qed.

(** C7, as the code has it: the resolver filters the candidates by the
    constant EXPENSE, the type the handler has written to the form with the
    draft, and not by the type the form has when the resolution runs.  It
    takes a candidate whose name is the suggestion up to letter case,
    nothing looser (the whole lower-cased names are equal), and writes its
    id whatever state the form is in; with no such candidate, or with a
    blank suggestion, the category is left empty.  The three examples of the
    specification are evaluated on the code. *)
Theorem category_resolution props st (cats : list Category) (s : string) :
  (forall c, foundCategory cats s = Some c ->
             In c cats /\ category_type c = EXPENSE
             /\ toLowerCase (category_name c) = toLowerCase s)
  /\ (foundCategory cats s = None <->
      forall c, In c cats ->
                ~ (category_type c = EXPENSE
                   /\ toLowerCase (category_name c) = toLowerCase s))
  /\ (trim s = EmptyString ->
      form_category (values (timerCallback props (VObject [("category", VString s)]) st))
      = EmptyString)
  /\ (trim s <> EmptyString ->
      form_category (values (timerCallback props (VObject [("category", VString s)]) st))
      = match foundCategory (categories props) s with
        | Some c => category_id c
        | None => EmptyString
        end)
  /\ (let food_expense := {| category_id := "c1"; category_name := "Food";
                             category_type := EXPENSE |} in
      let food_income := {| category_id := "c2"; category_name := "Food";
                            category_type := INCOME |} in
      foundCategory [food_expense; food_income] "Food" = Some food_expense
      /\ foundCategory [food_expense; food_income] "food" = Some food_expense
      /\ foundCategory [food_expense; food_income] "Foo" = None).
Proof.
  split; [|split; [|split; [|split]]].
  - intros c H. unfold foundCategory in H. apply find_some in H as [Hin Hc].
    apply andb_true_iff in Hc as [Hn Ht]. apply String.eqb_eq in Hn.
    split; [done|]. split; [|done]. by destruct (category_type c).
  - unfold foundCategory. split.
    + intros H c Hin [Ht Hn].
      pose proof (find_none _ _ H c Hin) as Hc. simpl in Hc.
      by rewrite Hn, String.eqb_refl, Ht in Hc.
    + intros H. destruct (find _ cats) as [c|] eqn:E; [|done].
      apply find_some in E as [Hin Hc]. exfalso. apply (H c Hin).
      apply andb_true_iff in Hc as [Hn Ht]. apply String.eqb_eq in Hn.
      split; [|done]. by destruct (category_type c).
  - intros Hs. unfold timerCallback, nonblank. simpl.
    destruct s as [|a s']; [done|]. simpl. rewrite Hs. done.
  - intros Hs.
    rewrite (timerCallback_text props (VObject [("category", VString s)]) st eq_refl).
    simpl get. unfold resolved_category.
    destruct (String.eqb (trim s) EmptyString) eqn:E.
    { apply String.eqb_eq in E. contradiction. }
    by destruct (foundCategory (categories props) s).
  - repeat split; reflexivity.
Qed.

(** X30: for a draft whose description and category are each a string or
    absent, and whose amount can be converted: applying it sets the type to
    EXPENSE in the handler, while the category is still untouched and its
    resolution is only scheduled; when the timer runs, the category becomes
    the id of the matching EXPENSE category, or is cleared to the empty
    string whatever it held before, with a warning that quotes the unmatched
    suggestion (or says that no category could be extracted when there was
    none). *)
Theorem draft_sets_type_before_category props Date_new st fields :
  settled st ->
  isProcessingScan st = false ->
  timers st = [] ->
  text_or_falsy (get (VObject fields) "description") = true ->
  text_or_falsy (get (VObject fields) "category") = true ->
  unprintable (get (VObject fields) "amount") = false ->
  let d := VObject fields in
  let st1 := step props Date_new (ScanComplete d) st in
  let st2 := step props Date_new TimerFires st1 in
  let r := resolved_category (categories props) (get d "category") in
  (form_type (values st1) = Some EXPENSE
   /\ form_category (values st1) = form_category (values st)
   /\ timers st1 = [d]
   /\ isProcessingScan st1 = true)
  /\ (form_type (values st2) = Some EXPENSE
      /\ form_category (values st2) = fst r
      /\ toasts st2 = (toasts st1 ++ match snd r with Some t => [t] | None => [] end)%list
      /\ timers st2 = []
      /\ isProcessingScan st2 = false)
  /\ (forall s, get d "category" = VString s -> trim s <> EmptyString ->
        match foundCategory (categories props) s with
        | Some cat => r = (category_id cat, None) /\ category_type cat = EXPENSE
        | None => r = (EmptyString, Some (toast_warning (msg_unmatched_category s)))
        end)
  /\ (ToBoolean (get d "category") = false ->
      r = (EmptyString, Some (toast_warning msg_extract_category))).
Proof.
  intros Hset Hflag Htimers Hdesc Hcat _ d st1 st2 r.
  assert (Hst1 : form_type (values st1) = Some EXPENSE
                 /\ form_category (values st1) = form_category (values st)
                 /\ timers st1 = [d]
                 /\ isProcessingScan st1 = true
                 /\ renderedType st1 = form_type (values st1)).
  { subst st1. unfold step. simpl handle. unfold handleScanComplete.
    rewrite Hflag. simpl.
    destruct (applyDraft_done Date_new d (with_flag st true) eq_refl Hdesc)
      as (st' & -> & Hty & Hc & Ht & Hf & Hp & Hr).
    simpl in *. rewrite Htimers in Ht. simpl in Ht.
    unfold render. destruct (option_type_eqb _ _) eqn:E.
    - apply option_type_eqb_eq in E. (repeat split); done.
    - rewrite typeEffect_flagged by done. simpl. (repeat split); done. }
  destruct Hst1 as (Hty1 & Hc1 & Ht1 & Hf1 & Hr1).
  split; [(repeat split); done|]. split.
  - subst st2. unfold step. simpl handle. rewrite Ht1.
    rewrite (timerCallback_text props d _ Hcat). fold r.
    rewrite render_settled.
    + destruct (snd r); simpl; (repeat split); try done. by rewrite app_nil_r.
    + destruct (snd r); simpl; done.
  - split.
    + intros s Hs Hne. subst r. rewrite Hs. simpl.
      destruct (String.eqb (trim s) EmptyString) eqn:E.
      { apply String.eqb_eq in E. contradiction. }
      destruct (foundCategory _ s) as [cat|] eqn:F; [|done].
      split; [done|]. unfold foundCategory in F. apply find_some in F as [_ F].
      apply andb_true_iff in F as [_ F]. by destruct (category_type cat).
    + intros Hf. subst r. destruct (get d "category") as [| |b|n|s|items|fs];
        simpl in *; try done.
      destruct s; simpl in *; [done|discriminate].
Qed.

(** What the [try] block does to everything but amount, date and
    description, whether it raises or not. *)
Lemma applyDraft_frame Date_new d st :
  let st' := fst (applyDraft Date_new d st) in
  let raised := snd (applyDraft Date_new d st) in
  form_category (values st') = form_category (values st)
  /\ isProcessingScan st' = isProcessingScan st
  /\ prevTypeRef st' = prevTypeRef st
  /\ renderedType st' = renderedType st
  /\ (raised = true ->
      form_type (values st') = form_type (values st) /\ timers st' = timers st)
  /\ (raised = false ->
      form_type (values st') = Some EXPENSE /\ timers st' = (timers st ++ [d])%list).
Proof.
  unfold applyDraft.
  repeat (case_match; simpl; try done); simplify_eq; (repeat split); simpl; try done.
Qed.




Lemma flagged_scan_ignored props Date_new st d2 es :
  settled st ->
  isProcessingScan st = true ->
  step props Date_new (ScanComplete d2) st = st
  /\ run props Date_new (ScanComplete d2 :: es) st = run props Date_new es st.
Proof.
  intros (Hr & _) Hflag.
  assert (H : step props Date_new (ScanComplete d2) st = st).
  { unfold step. simpl. unfold handleScanComplete.
    rewrite Hflag, orb_true_r. by apply render_settled. }
  split; [done|]. simpl. by rewrite H.
Qed.

(** C5: a draft that arrives while the flag is set changes nothing: no
    field is written, no timer is queued, no toast is shown; whatever
    happens next happens as if it had never arrived. *)
Theorem second_draft_dropped props Date_new st d2 es :
  settled st ->
  isProcessingScan st = true ->
  step props Date_new (ScanComplete d2) st = st
  /\ run props Date_new (ScanComplete d2 :: es) st = run props Date_new es st.
Proof. exact (flagged_scan_ignored props Date_new st d2 es). Qed.

(** *** Sample data *)

(** A [Date] constructor for the examples: it reads the date-only ISO form
    [YYYY-MM-DD] when the calendar has that day, and gives an invalid date
    for everything else. *)
Definition sample_Date_new (v : value) : option Date :=
  match v with
  | VString s =>
      if dateRegex_match s then
        let y := digits_value (String.substring 0 4 s) in
        let m := digits_value (String.substring 5 2 s) in
        let d := digits_value (String.substring 8 2 s) in
        if (1 <=? m) && (m <=? 12) && (1 <=? d) && (d <=? daysInMonth y (m - 1))
        then Some {| getFullYear := y; getMonth := m - 1; getDate := d; timeInDay := 0 |}
        else None
      else None
  | _ => None
  end.

Definition sample_props : Props :=
  {| props_accounts := [];
     categories :=
       [ {| category_id := "c1"; category_name := "Transport"; category_type := EXPENSE |};
         {| category_id := "c2"; category_name := "Salary"; category_type := INCOME |} ];
     editMode := false;
     initialData := None |}.

Definition sample_now : Date :=
  {| getFullYear := 2025; getMonth := 5; getDate := 1; timeInDay := 0 |}.

Definition sample_draft : value :=
  VObject [("amount", VNumber (Finite (25 # 2))); ("description", VString "Metro");
           ("date", VString "2025-05-30"); ("category", VString "transport")].

Definition other_draft : value :=
  VObject [("amount", q 99); ("description", VString "Bakery");
           ("date", VString "2025-05-31"); ("category", VString "Food")].

Lemma draft_sets_type_before_category_witness :
  let st := step sample_props sample_Date_new (SelectType INCOME)
              (mount sample_props sample_now) in
  let st1 := step sample_props sample_Date_new (ScanComplete sample_draft) st in
  let st2 := step sample_props sample_Date_new TimerFires st1 in
  form_type (values st) = Some INCOME
  /\ form_type (values st1) = Some EXPENSE
  /\ form_category (values st2) = "c1".
Proof.
  cbv zeta. split; [reflexivity|].
  pose proof (draft_sets_type_before_category sample_props sample_Date_new
    (step sample_props sample_Date_new (SelectType INCOME) (mount sample_props sample_now))
    [("amount", VNumber (Finite (25 # 2))); ("description", VString "Metro");
     ("date", VString "2025-05-30"); ("category", VString "transport")]) as H.
  cbv zeta in H.
  destruct H as ((H1 & _) & (_ & H2 & _) & _).
  - unfold settled. vm_compute. (repeat split); congruence.
  - reflexivity.
  - reflexivity.
  - reflexivity.
  - reflexivity.
  - reflexivity.
  - split; [exact H1 | exact H2].
Defined.

(** A draft whose category is a list of names; [scanReceipt] hands it on as
    it is (line 132 keeps every truthy category). *)
Definition listed_category_draft : value :=
  VObject [("amount", q 40); ("description", VString "Kiosk");
           ("date", VString "2025-05-30");
           ("category", VArray [VString "Transport"])].

(** C4, where the code departs from it: a draft whose category is not a
    string.  The server returns it, the handler sets the type to EXPENSE,
    and the timer callback raises at [trim], outside every [try]: the
    category keeps the id of the INCOME category chosen before, no advisory
    is shown, and the flag stays set. *)
Theorem draft_with_listed_category_keeps_category :
  let st := run sample_props sample_Date_new [SelectType INCOME; SelectCategory "c2"]
              (mount sample_props sample_now) in
  let st1 := step sample_props sample_Date_new (ScanComplete listed_category_draft) st in
  let st2 := step sample_props sample_Date_new TimerFires st1 in
  normalize "2025-06-01" listed_category_draft = Ok listed_category_draft
  /\ form_type (values st) = Some INCOME
  /\ form_category (values st) = "c2"
  /\ form_type (values st1) = Some EXPENSE
  /\ form_type (values st2) = Some EXPENSE
  /\ form_category (values st2) = "c2"
  /\ toasts st2 = toasts st1
  /\ isProcessingScan st2 = true.
Proof. cbv zeta. (repeat split); reflexivity. Qed.

Definition food_props : Props :=
  {| props_accounts := [];
     categories :=
       [ {| category_id := "c1"; category_name := "Food"; category_type := EXPENSE |};
         {| category_id := "c2"; category_name := "Food"; category_type := INCOME |} ];
     editMode := false;
     initialData := None |}.

(** C7, counterexample: the candidates are not filtered by the type of the
    transaction.  The user picks INCOME before the resolution runs; with the
    form's type INCOME and the candidates Food/EXPENSE and Food/INCOME, the
    suggestion [Food] resolves to the EXPENSE candidate, whose type is not
    the transaction's, and not to the INCOME candidate of that name. *)
Lemma resolution_ignores_transaction_type :
  let st2 := run food_props sample_Date_new [ScanComplete other_draft; SelectType INCOME]
               (mount food_props sample_now) in
  let st3 := step food_props sample_Date_new TimerFires st2 in
  get other_draft "category" = VString "Food"
  /\ form_type (values st2) = Some INCOME
  /\ form_type (values st3) = Some INCOME
  /\ form_category (values st3) = "c1"
  /\ foundCategory (categories food_props) "Food"
     = Some {| category_id := "c1"; category_name := "Food"; category_type := EXPENSE |}
  /\ In {| category_id := "c2"; category_name := "Food"; category_type := INCOME |}
        (categories food_props).
Proof. cbv zeta. (repeat split); try reflexivity. right. by left. Qed.

Lemma second_draft_dropped_witness :
  let st := step sample_props sample_Date_new (ScanComplete sample_draft)
              (mount sample_props sample_now) in
  isProcessingScan st = true
  /\ run sample_props sample_Date_new [ScanComplete other_draft; TimerFires] st
     = run sample_props sample_Date_new [TimerFires] st.
Proof.
  cbv zeta. split; [reflexivity|].
  refine (proj2 (second_draft_dropped sample_props sample_Date_new _ other_draft
                   [TimerFires] _ _)).
  - unfold settled. vm_compute. (repeat split); congruence.
  - reflexivity.
Defined.


(* --------------------------------------------------------------------- *)
(** ** The calendar                                                       *)
(* --------------------------------------------------------------------- *)

(** The day number of the first of a month. *)
Definition monthStart (y m : Z) : Z := DayFromYear y + daysBeforeMonth y m.

Ltac leap_cases y :=
  unfold DaysInYear, isLeapYear in *;
  destruct (y mod 4 =? 0) eqn:?E4, (y mod 100 =? 0) eqn:?E100,
           (y mod 400 =? 0) eqn:?E400;
  simpl in *; rewrite ?Z.eqb_eq, ?Z.eqb_neq in *.

Lemma DayFromYear_succ y : DayFromYear (y + 1) = DayFromYear y + DaysInYear y.
Proof.
  unfold DayFromYear. leap_cases y; Z.div_mod_to_equations; lia.
Qed.

Lemma daysInMonth_bounds y m : 28 <= daysInMonth y m <= 31.
Proof.
  unfold daysInMonth. repeat case_match; lia.
Qed.

Lemma daysBeforeMonth_succ y m :
  0 <= m <= 10 ->
  daysBeforeMonth y (m + 1) = daysBeforeMonth y m + daysInMonth y m.
Proof.
  intros H.
  assert (m = 0 \/ m = 1 \/ m = 2 \/ m = 3 \/ m = 4 \/ m = 5 \/ m = 6 \/ m = 7
          \/ m = 8 \/ m = 9 \/ m = 10) as Hm by lia.
  unfold daysBeforeMonth, daysInMonth.
  repeat (destruct Hm as [-> | Hm]); try subst m; simpl;
    destruct (isLeapYear y); reflexivity.
Qed.

Lemma daysBeforeMonth_last y :
  daysBeforeMonth y 11 + daysInMonth y 11 = DaysInYear y.
Proof.
  unfold daysBeforeMonth, daysInMonth, DaysInYear. simpl.
  destruct (isLeapYear y); reflexivity.
Qed.

Lemma nextMonth_start y m :
  0 <= m <= 11 ->
  monthStart (fst (nextMonth y m)) (snd (nextMonth y m))
  = monthStart y m + daysInMonth y m
  /\ 0 <= snd (nextMonth y m) <= 11.
Proof.
  intros H. unfold nextMonth, monthStart.
  destruct (m =? 11) eqn:E; simpl.
  - apply Z.eqb_eq in E. subst m.
    rewrite DayFromYear_succ. pose proof (daysBeforeMonth_last y).
    unfold daysBeforeMonth at 1. simpl. lia.
  - apply Z.eqb_neq in E. rewrite daysBeforeMonth_succ by lia. lia.
Qed.

Lemma prevMonth_start y m :
  0 <= m <= 11 ->
  monthStart (fst (prevMonth y m)) (snd (prevMonth y m))
  + daysInMonth (fst (prevMonth y m)) (snd (prevMonth y m))
  = monthStart y m
  /\ 0 <= snd (prevMonth y m) <= 11.
Proof.
  intros H. unfold prevMonth, monthStart.
  destruct (m =? 0) eqn:E; simpl.
  - apply Z.eqb_eq in E. subst m.
    assert (Hy : DayFromYear y = DayFromYear (y - 1) + DaysInYear (y - 1)).
    { rewrite <- DayFromYear_succ. f_equal. lia. }
    pose proof (daysBeforeMonth_last (y - 1)) as Hl.
    change (daysBeforeMonth y 0) with 0. lia.
  - apply Z.eqb_neq in E.
    assert (Hb : daysBeforeMonth y m
                 = daysBeforeMonth y (m - 1) + daysInMonth y (m - 1)).
    { rewrite <- daysBeforeMonth_succ by lia. f_equal. lia. }
    lia.
Qed.

(** Rolling keeps the day number and the month index in range. *)
Lemma rollDays_day fuel : forall y m d,
  0 <= m <= 11 ->
  let '(y', m', d') := rollDays fuel y m d in
  monthStart y' m' + d' = monthStart y m + d /\ 0 <= m' <= 11.
Proof.
  induction fuel as [|k IH]; intros y m d Hm; simpl; [done|].
  destruct (d <? 1) eqn:E1.
  - destruct (prevMonth_start y m Hm) as [Hs Hr].
    destruct (prevMonth y m) as [y' m'] eqn:Ep. simpl in Hs, Hr.
    specialize (IH y' m' (d + daysInMonth y' m') Hr).
    destruct (rollDays k y' m' _) as [[y2 m2] d2]. lia.
  - destruct (daysInMonth y m <? d) eqn:E2; [|done].
    destruct (nextMonth_start y m Hm) as [Hs Hr].
    destruct (nextMonth y m) as [y' m'] eqn:En. simpl in Hs, Hr.
    specialize (IH y' m' (d - daysInMonth y m) Hr).
    destruct (rollDays k y' m' _) as [[y2 m2] d2]. lia.
Qed.

(** With enough fuel the rolled day is a day of its month. *)
Lemma rollDays_in_month fuel : forall y m d,
  0 <= m <= 11 ->
  (1 <= d <= daysInMonth y m)
  \/ (daysInMonth y m < d <= 28 * (Z.of_nat fuel + 1))
  \/ (d <= 0 /\ - d < 28 * Z.of_nat fuel) ->
  let '(y', m', d') := rollDays fuel y m d in
  1 <= d' <= daysInMonth y' m'.
Proof.
  induction fuel as [|k IH]; intros y m d Hm Hd; simpl.
  - pose proof (daysInMonth_bounds y m). lia.
  - destruct (d <? 1) eqn:E1.
    + apply Z.ltb_lt in E1.
      destruct (prevMonth_start y m Hm) as [_ Hr].
      destruct (prevMonth y m) as [y' m'] eqn:Ep. simpl in Hr.
      apply IH; [done|].
      pose proof (daysInMonth_bounds y m). pose proof (daysInMonth_bounds y' m'). lia.
    + apply Z.ltb_ge in E1. destruct (daysInMonth y m <? d) eqn:E2.
      * apply Z.ltb_lt in E2.
        destruct (nextMonth_start y m Hm) as [_ Hr].
        destruct (nextMonth y m) as [y' m'] eqn:En. simpl in Hr.
        apply IH; [done|].
        pose proof (daysInMonth_bounds y m). pose proof (daysInMonth_bounds y' m'). lia.
      * apply Z.ltb_ge in E2. lia.
Qed.

Lemma MakeDay_in_year y m d :
  0 <= m <= 11 -> MakeDay y m d = monthStart y m + d - 1.
Proof.
  intros H. unfold MakeDay, monthStart.
  rewrite Z.div_small, Z.mod_small by lia. by rewrite Z.add_0_r.
Qed.

(** [dateOfMakeDay] is the calendar date of the day [MakeDay] numbers. *)
Lemma dateOfMakeDay_correct y m d t :
  0 <= t < msPerDay ->
  let dt := dateOfMakeDay y m d t in
  Day dt = MakeDay y m d /\ valid_fields dt /\ timeInDay dt = t.
Proof.
  intros Ht. unfold dateOfMakeDay.
  assert (Hm : 0 <= m mod 12 <= 11) by (pose proof (Z.mod_pos_bound m 12); lia).
  pose proof (rollDays_day (S (Z.to_nat (Z.abs d))) (y + m / 12) (m mod 12) d Hm) as H1.
  pose proof (rollDays_in_month (S (Z.to_nat (Z.abs d))) (y + m / 12) (m mod 12) d Hm) as H2.
  destruct (rollDays _ _ _ _) as [[y' m'] d']. simpl.
  destruct H1 as [H1 Hm'].
  unfold Day, valid_fields. simpl. rewrite MakeDay_in_year by done.
  split; [unfold MakeDay; fold (monthStart (y + m / 12) (m mod 12)); lia|].
  split; [|done]. split; [done|]. split; [|done].
  apply H2. pose proof (daysInMonth_bounds (y + m / 12) (m mod 12)). lia.
Qed.

(** Day [d] of month [m] when the month has it; otherwise the days past
    the end of the month, counted into the month after. *)
Definition overflowInto (y m d t : Z) : Date :=
  if d <=? daysInMonth y m
  then {| getFullYear := y; getMonth := m; getDate := d; timeInDay := t |}
  else {| getFullYear := fst (nextMonth y m); getMonth := snd (nextMonth y m);
          getDate := d - daysInMonth y m; timeInDay := t |}.

Lemma rollDays_stays k y m d :
  1 <= d <= daysInMonth y m -> rollDays k y m d = (y, m, d).
Proof.
  intros H. destruct k; simpl; [done|].
  destruct (d <? 1) eqn:E1; [apply Z.ltb_lt in E1; lia|].
  destruct (daysInMonth y m <? d) eqn:E2; [apply Z.ltb_lt in E2; lia|done].
Qed.

Lemma dateOfMakeDay_overflow y m d t :
  0 <= m <= 11 -> 1 <= d <= 31 ->
  dateOfMakeDay y m d t = overflowInto y m d t.
Proof.
  intros Hm Hd. unfold dateOfMakeDay, overflowInto.
  rewrite Z.div_small, Z.mod_small, Z.add_0_r by lia.
  simpl rollDays.
  destruct (d <? 1) eqn:E1; [apply Z.ltb_lt in E1; lia|].
  destruct (daysInMonth y m <? d) eqn:E2.
  - apply Z.ltb_lt in E2.
    destruct (d <=? daysInMonth y m) eqn:E3; [apply Z.leb_le in E3; lia|].
    destruct (nextMonth y m) as [y' m']. simpl.
    rewrite rollDays_stays; [done|].
    pose proof (daysInMonth_bounds y m). pose proof (daysInMonth_bounds y' m'). lia.
  - apply Z.ltb_ge in E2.
    destruct (d <=? daysInMonth y m) eqn:E3; [done|apply Z.leb_gt in E3; lia].
Qed.

Lemma dateOfMakeDay_carry y m d t :
  dateOfMakeDay y m d t = dateOfMakeDay (y + m / 12) (m mod 12) d t.
Proof.
  unfold dateOfMakeDay.
  assert (Hm : 0 <= m mod 12 < 12) by (apply Z.mod_pos_bound; lia).
  rewrite (Z.div_small (m mod 12)), (Z.mod_small (m mod 12)), Z.add_0_r by lia.
  done.
Qed.

Lemma nextMonth_carry y m :
  0 <= m <= 11 -> (y + (m + 1) / 12, (m + 1) mod 12) = nextMonth y m.
Proof.
  intros H. unfold nextMonth. destruct (m =? 11) eqn:E.
  - apply Z.eqb_eq in E. by subst m.
  - apply Z.eqb_neq in E.
    rewrite Z.div_small, Z.mod_small by lia. f_equal. lia.
Qed.

Lemma daysBeforeMonth_years y1 y2 m :
  -1 <= daysBeforeMonth y1 m - daysBeforeMonth y2 m <= 1.
Proof.
  unfold daysBeforeMonth. repeat case_match; lia.
Qed.

Lemma valid_day_bounds dt : valid_fields dt -> 1 <= getDate dt <= 31.
Proof.
  intros (_ & H & _).
  pose proof (daysInMonth_bounds (getFullYear dt) (getMonth dt)). lia.
Qed.

(** The day number each interval leads to. *)
Lemma calculateNextRecurringDate_day dt interval :
  valid_fields dt ->
  let next := calculateNextRecurringDate dt interval in
  valid_fields next
  /\ timeInDay next = timeInDay dt
  /\ Day next =
       match interval with
       | DAILY => Day dt + 1
       | WEEKLY => Day dt + 7
       | MONTHLY => MakeDay (getFullYear dt) (getMonth dt + 1) (getDate dt)
       | YEARLY => MakeDay (getFullYear dt + 1) (getMonth dt) (getDate dt)
       end.
Proof.
  intros Hv. pose proof Hv as (Hm & Hd & Ht).
  destruct interval; simpl; unfold setDate, setMonth, setFullYear;
    match goal with
    | |- context [dateOfMakeDay ?y ?m ?d ?t] =>
        destruct (dateOfMakeDay_correct y m d t Ht) as (H1 & H2 & H3)
    end; (split; [done|]); (split; [done|]); rewrite H1; try done;
    unfold Day, MakeDay; lia.
Qed.

Lemma calculateNextRecurringDate_later dt interval :
  valid_fields dt ->
  getTime dt < getTime (calculateNextRecurringDate dt interval).
Proof.
  intros Hv. pose proof Hv as (Hm & Hd & Ht).
  destruct (calculateNextRecurringDate_day dt interval Hv) as (_ & Htime & Hday).
  unfold getTime. rewrite Htime, Hday.
  assert (Day dt + 1 <=
            match interval with
            | DAILY => Day dt + 1
            | WEEKLY => Day dt + 7
            | MONTHLY => MakeDay (getFullYear dt) (getMonth dt + 1) (getDate dt)
            | YEARLY => MakeDay (getFullYear dt + 1) (getMonth dt) (getDate dt)
            end) as Hle.
  { destruct interval; try lia.
    - unfold Day. rewrite (MakeDay_in_year _ (getMonth dt)) by done.
      unfold MakeDay.
      pose proof (nextMonth_carry (getFullYear dt) (getMonth dt) Hm) as Hc.
      pose proof (nextMonth_start (getFullYear dt) (getMonth dt) Hm) as [Hs _].
      rewrite <- Hc in Hs. simpl in Hs. unfold monthStart in Hs at 1.
      pose proof (daysInMonth_bounds (getFullYear dt) (getMonth dt)). lia.
    - unfold Day. rewrite !MakeDay_in_year by done. unfold monthStart.
      rewrite DayFromYear_succ.
      pose proof (daysBeforeMonth_years (getFullYear dt + 1) (getFullYear dt) (getMonth dt)).
      unfold DaysInYear. destruct (isLeapYear _); lia. }
  unfold msPerDay in *. nia.
Qed.

(** C8, counterexample: one month after January 31st is March 3rd (March
    2nd in a leap year), not the last day of February. *)
Lemma monthly_from_january_31_is_march :
  calculateNextRecurringDate (mkDate 2023 0 31) MONTHLY = mkDate 2023 2 3
  /\ calculateNextRecurringDate (mkDate 2024 0 31) MONTHLY = mkDate 2024 2 2
  /\ calculateNextRecurringDate (mkDate 2023 0 31) MONTHLY <> mkDate 2023 1 28.
Proof. repeat split; try reflexivity. discriminate. Qed.

(** C8, as the code has it: a recurring transaction with an interval gets
    the date one day, seven days, one month or one year later, counted the
    way [Date] counts: the day of the month is kept when the target month
    has it, and otherwise the days beyond the end of that month run into the
    month after it.  The result is a calendar date, at the same time of day,
    strictly later than the transaction's date.  Without the flag or without
    an interval there is no next date. *)
Theorem next_recurring_date (data : TransactionData) :
  valid_date (date data) ->
  let dt := date data in
  match nextRecurringDate_of data with
  | None => isRecurring data = false \/ recurringInterval data = None
  | Some next =>
      exists interval,
        isRecurring data = true
        /\ recurringInterval data = Some interval
        /\ valid_fields next
        /\ timeInDay next = timeInDay dt
        /\ getTime dt < getTime next
        /\ match interval with
           | DAILY => Day next = Day dt + 1
           | WEEKLY => Day next = Day dt + 7
           | MONTHLY =>
               next = overflowInto (fst (nextMonth (getFullYear dt) (getMonth dt)))
                        (snd (nextMonth (getFullYear dt) (getMonth dt)))
                        (getDate dt) (timeInDay dt)
           | YEARLY =>
               next = overflowInto (getFullYear dt + 1) (getMonth dt)
                        (getDate dt) (timeInDay dt)
           end
  end.
Proof.
  intros [Hv _] dt. unfold nextRecurringDate_of.
  destruct (isRecurring data); [|by left].
  destruct (recurringInterval data) as [interval|]; [|by right].
  exists interval. fold dt.
  destruct (calculateNextRecurringDate_day dt interval Hv) as (Hvn & Htime & Hday).
  pose proof (calculateNextRecurringDate_later dt interval Hv) as Hlater.
  pose proof Hv as (Hm & Hd & Ht). pose proof (valid_day_bounds dt Hv) as Hd31.
  do 5 (split; [done|]).
  destruct interval; try done.
  - unfold calculateNextRecurringDate, setMonth. rewrite dateOfMakeDay_carry.
    pose proof (nextMonth_carry (getFullYear dt) (getMonth dt) Hm) as Hc.
    pose proof (nextMonth_start (getFullYear dt) (getMonth dt) Hm) as [_ Hr].
    rewrite <- Hc in *. simpl fst in *. simpl snd in *.
    by apply dateOfMakeDay_overflow.
  - unfold calculateNextRecurringDate, setFullYear. by apply dateOfMakeDay_overflow.
Qed.

Definition sample_data : TransactionData :=
  {| type := EXPENSE; amount := 100; description := "Rent"; accountId := "acc_1";
     category := "housing"; date := mkDate 2024 0 31; isRecurring := true;
     recurringInterval := Some MONTHLY |}.

Lemma next_recurring_date_witness :
  nextRecurringDate_of sample_data = Some (mkDate 2024 2 2)
  /\ getTime (mkDate 2024 0 31) < getTime (mkDate 2024 2 2).
Proof.
  split; [reflexivity|].
  pose proof (next_recurring_date sample_data) as H.
  change (nextRecurringDate_of sample_data) with (Some (mkDate 2024 2 2)) in H.
  destruct H as (i & _ & _ & _ & _ & Hl & _).
  - unfold valid_date, valid_fields. vm_compute. (repeat split); congruence.
  - exact Hl.
Defined.

(* --------------------------------------------------------------------- *)
(** ** The ledger                                                         *)
(* --------------------------------------------------------------------- *)

Lemma account_findUnique_Some db aid uid a :
  account_findUnique db aid uid = Some a ->
  accounts db !! aid = Some a /\ account_userId a = uid.
Proof.
  unfold account_findUnique. destruct (accounts db !! aid) as [a'|]; [|done].
  destruct (String.eqb _ _) eqn:E; [|done].
  apply String.eqb_eq in E. by intros [= ->].
Qed.

Lemma transaction_findUnique_Some db tid uid t :
  transaction_findUnique db tid uid = Some t ->
  transactions db !! tid = Some t /\ userId t = uid.
Proof.
  unfold transaction_findUnique. destruct (transactions db !! tid) as [t'|]; [|done].
  destruct (String.eqb _ _) eqn:E; [|done].
  apply String.eqb_eq in E. by intros [= ->].
Qed.

(** What a call of [createTransaction] leaves behind, whatever the store
    carries out. *)
Lemma createTransaction_on_inv store auth decision newId data db :
  match createTransaction_on store auth decision newId data db with
  | (Ok r, db') =>
      exists account,
        accounts db !! accountId data = Some account
        /\ accounts db' =
             <[accountId data :=
                 with_balance account
                   (balance account +
                    match type data with
                    | EXPENSE => - amount data
                    | INCOME => amount data
                    end)%Q]> (accounts db)
        /\ transactions db !! newId = None
        /\ transactions db' = <[newId := result_data r]> (transactions db)
        /\ users db' = users db
        /\ result_success r = true
        /\ id (result_data r) = newId
        /\ fields (result_data r) = data
  | (Throw _, db') => db' = db
  end.
Proof.
  unfold createTransaction_on.
  destruct auth as [clerkId|]; [|done].
  destruct decision; try done.
  destruct (users db !! clerkId) as [user|]; [|done].
  destruct (account_findUnique db (accountId data) (user_id user)) as [account|] eqn:Ea;
    [|done].
  apply account_findUnique_Some in Ea as [Ea _].
  unfold db_transaction, createTransaction_body, bind, attempt,
    transaction_create, account_update, ret.
  destruct (store RowWrite); [|done].
  destruct (transactions db !! newId) eqn:Et; [done|].
  destruct (store BalanceWrite); [|done].
  simpl. rewrite Ea. simpl.
  exists account. unfold signed_amount. by destruct (type data).
Qed.

Lemma createTransaction_inv auth decision newId data db :
  match createTransaction auth decision newId data db with
  | (Ok r, db') =>
      exists account,
        accounts db !! accountId data = Some account
        /\ accounts db' =
             <[accountId data :=
                 with_balance account
                   (balance account +
                    match type data with
                    | EXPENSE => - amount data
                    | INCOME => amount data
                    end)%Q]> (accounts db)
        /\ transactions db !! newId = None
        /\ transactions db' = <[newId := result_data r]> (transactions db)
        /\ users db' = users db
        /\ result_success r = true
        /\ id (result_data r) = newId
        /\ fields (result_data r) = data
  | (Throw _, db') => db' = db
  end.
Proof. exact (createTransaction_on_inv store_up auth decision newId data db). Qed.

(** When [createTransaction] resolves. *)
Lemma createTransaction_on_resolves store auth decision newId data db :
  is_ok (fst (createTransaction_on store auth decision newId data db)) = true <->
  store RowWrite = true /\ store BalanceWrite = true
  /\ exists clerkId user account,
       auth = Some clerkId
       /\ decision = Allowed
       /\ users db !! clerkId = Some user
       /\ accounts db !! accountId data = Some account
       /\ account_userId account = user_id user
       /\ transactions db !! newId = None.
Proof.
  unfold createTransaction_on. split.
  - destruct auth as [clerkId|]; [|done]. destruct decision; try done.
    destruct (users db !! clerkId) as [user|] eqn:Eu; [|done].
    destruct (account_findUnique db (accountId data) (user_id user)) as [account|] eqn:Ea;
      [|done].
    apply account_findUnique_Some in Ea as [Ea Hu].
    unfold db_transaction, createTransaction_body, bind, attempt,
      transaction_create, account_update, ret.
    destruct (store RowWrite); [|done].
    destruct (transactions db !! newId) eqn:Et; [done|].
    destruct (store BalanceWrite); [|done].
    intros _. split; [done|]. split; [done|]. by exists clerkId, user, account.
  - intros (Hr & Hb & clerkId & user & account & -> & -> & -> & Ea & Hu & Et).
    unfold account_findUnique. rewrite Ea, Hu, String.eqb_refl.
    unfold db_transaction, createTransaction_body, bind, attempt,
      transaction_create, account_update, ret.
    rewrite Hr, Hb, Et. simpl. by rewrite Ea.
Qed.

(** The body of the database transaction when the store carries out the
    row and then fails on the balance: the row is in the store the body
    leaves, and [db.$transaction] discards it. *)
Lemma createTransaction_rollback store newId row aid newBalance db :
  transactions db !! newId = None ->
  store RowWrite = true ->
  store BalanceWrite = false ->
  transactions (snd (createTransaction_body store newId row aid newBalance db)) !! newId
  = Some row
  /\ snd (db_transaction (createTransaction_body store newId row aid newBalance) db) = db.
Proof.
  intros Et Hr Hb.
  unfold db_transaction, createTransaction_body, bind, attempt,
    transaction_create, account_update, ret.
  rewrite Hr, Et, Hb. simpl. split; [apply lookup_insert_eq | done].
Qed.

(** C2: the outcome of [createTransaction], whatever the store carries
    out.  When it resolves, the new row is in the store and the balance of
    its account is the balance read plus the signed amount; when it
    rejects, the store is as it was, so the row and the balance are written
    together or not at all.  It resolves exactly when the session has a
    user, the rate limiter lets the request through, the account exists and
    is that user's, the key of the new row is free and the store carries out
    both writes.  When the store writes the row and then fails on the
    balance, the row the body has written is discarded by
    [db.$transaction]. *)
Theorem createTransaction_atomic store auth decision newId data db outcome db' :
  createTransaction_on store auth decision newId data db = (outcome, db') ->
  match outcome with
  | Ok r =>
      exists account,
        accounts db !! accountId data = Some account
        /\ accounts db' =
             <[accountId data :=
                 with_balance account
                   (balance account +
                    match type data with
                    | EXPENSE => - amount data
                    | INCOME => amount data
                    end)%Q]> (accounts db)
        /\ transactions db !! newId = None
        /\ transactions db' = <[newId := result_data r]> (transactions db)
        /\ users db' = users db
        /\ result_success r = true
        /\ id (result_data r) = newId
        /\ fields (result_data r) = data
  | Throw _ => db' = db
  end
  /\ (is_ok outcome = true <->
      store RowWrite = true /\ store BalanceWrite = true
      /\ exists clerkId user account,
           auth = Some clerkId
           /\ decision = Allowed
           /\ users db !! clerkId = Some user
           /\ accounts db !! accountId data = Some account
           /\ account_userId account = user_id user
           /\ transactions db !! newId = None)
  /\ (forall row aid newBalance,
        transactions db !! newId = None ->
        store RowWrite = true ->
        store BalanceWrite = false ->
        transactions
          (snd (createTransaction_body store newId row aid newBalance db)) !! newId
        = Some row
        /\ snd (db_transaction (createTransaction_body store newId row aid newBalance) db)
           = db).
Proof.
  intros E.
  pose proof (createTransaction_on_inv store auth decision newId data db) as I.
  pose proof (createTransaction_on_resolves store auth decision newId data db) as R.
  rewrite E in I, R. simpl in R.
  split; [exact I|]. split; [exact R|].
  intros row aid newBalance. apply createTransaction_rollback.
Qed.

Lemma updateTransaction_inv auth tid data db r db' :
  updateTransaction auth tid data db = (Ok r, db') ->
  exists original account,
    transactions db !! tid = Some original
    /\ accounts db !! accountId data = Some account
    /\ (let oldDelta :=
          match type (fields original) with
          | EXPENSE => - amount (fields original)
          | INCOME => amount (fields original)
          end in
        let newDelta :=
          match type data with
          | EXPENSE => - amount data
          | INCOME => amount data
          end in
        accounts db' =
          <[accountId data :=
              with_balance account (balance account + (newDelta - oldDelta))]>
            (accounts db))%Q
    /\ transactions db' = <[tid := result_data r]> (transactions db)
    /\ fields (result_data r) = data
    /\ id (result_data r) = id original.
Proof.
  unfold updateTransaction.
  destruct auth as [clerkId|]; [|done].
  destruct (users db !! clerkId) as [user|]; [|done].
  destruct (transaction_findUnique db tid (user_id user)) as [original|] eqn:Et; [|done].
  unfold db_transaction, bind, transaction_update, account_update, ret.
  rewrite Et. simpl.
  destruct (accounts db !! accountId data) as [account|] eqn:Ea; [|done].
  intros [= <- <-]. simpl.
  apply transaction_findUnique_Some in Et as [Et _].
  exists original, account. unfold signed_amount.
  by destruct (type data), (type (fields original)).
Qed.

(** C1: when [updateTransaction] resolves, the balance of the account the
    new values name has grown by the signed amount of the new values minus
    the signed amount of the row as the store held it when the action ran
    (the action is given no old values); every other account is as it was,
    and the row now carries the new values. *)
Theorem updateTransaction_net_change auth tid data db r db' :
  updateTransaction auth tid data db = (Ok r, db') ->
  exists original account,
    transactions db !! tid = Some original
    /\ accounts db !! accountId data = Some account
    /\ (let oldDelta :=
          match type (fields original) with
          | EXPENSE => - amount (fields original)
          | INCOME => amount (fields original)
          end in
        let newDelta :=
          match type data with
          | EXPENSE => - amount data
          | INCOME => amount data
          end in
        accounts db' =
          <[accountId data :=
              with_balance account (balance account + (newDelta - oldDelta))]>
            (accounts db))%Q
    /\ transactions db' = <[tid := result_data r]> (transactions db)
    /\ fields (result_data r) = data
    /\ id (result_data r) = id original.
Proof. exact (updateTransaction_inv auth tid data db r db'). Qed.

Definition sample_user : User := {| user_id := "user_1"; clerkUserId := "clerk_1" |}.

Definition sample_account : Account :=
  {| account_id := "acc_1"; account_userId := "user_1"; account_name := "Current";
     balance := 500; isDefault := true |}.

Definition sample_transaction : Transaction :=
  {| id := "tx_1"; userId := "user_1";
     fields :=
       {| type := EXPENSE; amount := 100; description := "Groceries";
          accountId := "acc_1"; category := "food"; date := mkDate 2025 4 30;
          isRecurring := false; recurringInterval := None |};
     nextRecurringDate := None |}.

Definition sample_db : Db :=
  {| users := {[ "clerk_1" := sample_user ]};
     accounts := {[ "acc_1" := sample_account ]};
     transactions := {[ "tx_1" := sample_transaction ]} |}.

Definition sample_edit : TransactionData :=
  {| type := INCOME; amount := 30; description := "Refund";
     accountId := "acc_1"; category := "other"; date := mkDate 2025 4 30;
     isRecurring := false; recurringInterval := None |}.

Lemma updateTransaction_net_change_witness :
  exists r db' account,
    updateTransaction (Some "clerk_1") "tx_1" sample_edit sample_db = (Ok r, db')
    /\ accounts db' !! "acc_1" = Some account
    /\ (balance account == 630)%Q.
Proof.
  destruct (updateTransaction (Some "clerk_1") "tx_1" sample_edit sample_db)
    as [[r|m] db'] eqn:E; [|vm_compute in E; discriminate E].
  destruct (updateTransaction_net_change _ _ _ _ _ _ E)
    as (original & account & Ho & Ha & Hacc & _).
  vm_compute in Ho. vm_compute in Ha.
  injection Ho as <-. injection Ha as <-.
  eexists r, db', _. split; [reflexivity|]. split.
  - rewrite Hacc. apply lookup_insert_eq.
  - reflexivity.
Defined.

(** A store that writes the row and then fails on the balance. *)
Definition balance_write_fails (w : Write) : bool :=
  match w with RowWrite => true | BalanceWrite => false end.

Lemma createTransaction_atomic_witness :
  (exists r db' account,
     createTransaction_on store_up (Some "clerk_1") Allowed "tx_2" sample_data sample_db
     = (Ok r, db')
     /\ transactions db' !! "tx_2" = Some (result_data r)
     /\ fields (result_data r) = sample_data
     /\ accounts db' !! "acc_1" = Some account
     /\ (balance account == 400)%Q)
  /\ (exists m,
        createTransaction_on balance_write_fails (Some "clerk_1") Allowed "tx_2"
          sample_data sample_db
        = (Throw m, sample_db))
  /\ transactions
       (snd (createTransaction_body balance_write_fails "tx_2" sample_transaction
               "acc_1" 400 sample_db)) !! "tx_2"
     = Some sample_transaction.
Proof.
  split; [|split].
  - destruct (createTransaction_on store_up (Some "clerk_1") Allowed "tx_2"
                sample_data sample_db) as [[r|m] db'] eqn:E.
    + destruct (createTransaction_atomic _ _ _ _ _ _ _ _ E)
        as ((account & Ha & Hacc & _ & Ht & _ & _ & _ & Hf) & _ & _).
      vm_compute in Ha. injection Ha as <-.
      eexists r, db', _. split; [reflexivity|].
      split; [rewrite Ht; apply lookup_insert_eq|].
      split; [exact Hf|].
      split; [rewrite Hacc; apply lookup_insert_eq | reflexivity].
    + destruct (createTransaction_atomic _ _ _ _ _ _ _ _ E) as (_ & [_ R] & _).
      assert (is_ok (@Throw ActionResult m) = true) as F; [|discriminate F].
      apply R. split; [reflexivity|]. split; [reflexivity|].
      exists "clerk_1", sample_user, sample_account.
      (repeat split); reflexivity.
  - destruct (createTransaction_on balance_write_fails (Some "clerk_1") Allowed "tx_2"
                sample_data sample_db) as [[r|m] db'] eqn:E.
    + destruct (createTransaction_atomic _ _ _ _ _ _ _ _ E) as (_ & [R _] & _).
      destruct (R eq_refl) as (_ & F & _). discriminate F.
    + destruct (createTransaction_atomic _ _ _ _ _ _ _ _ E) as (-> & _ & _).
      by exists m.
  - destruct (createTransaction_on balance_write_fails (Some "clerk_1") Allowed "tx_2"
                sample_data sample_db) as [outcome db'] eqn:E.
    destruct (createTransaction_atomic _ _ _ _ _ _ _ _ E) as (_ & _ & B).
    exact (proj1 (B sample_transaction "acc_1" 400%Q eq_refl eq_refl eq_refl)).
Defined.

(* ===================================================================== *)
(** * Further properties                                                  *)
(* ===================================================================== *)

(* --------------------------------------------------------------------- *)
(** ** scanReceipt                                                        *)
(* --------------------------------------------------------------------- *)

(** The checks of [normalize], one after the other. *)
Ltac normalize_cases :=
  repeat match goal with
         | H : context [if ?b then Throw _ else _] |- _ => destruct b; [done|]
         end.

Lemma normalize_gives_object today v d :
  normalize today v = Ok d ->
  exists fields fields', v = VObject fields /\ d = VObject fields'.
Proof.
  destruct v as [| |b|n|s|items|fields]; try done.
  intros H. exists fields. rewrite normalize_object in H. cbv zeta in H.
  normalize_cases.
  injection H as <-. eexists. split; reflexivity.
Qed.

(** X1: a draft is returned for objects only, and is an object: every
    other value [JSON.parse] can give (an array, a string, a number, a
    boolean, [null]) makes normalisation raise. *)
Theorem normalize_only_objects today v d :
  normalize today v = Ok d ->
  exists fields fields', v = VObject fields /\ d = VObject fields'.
Proof. exact (normalize_gives_object today v d). Qed.

Lemma normalize_only_objects_witness :
  exists fields', normalize "2025-06-01" (VObject [("amount", q 12)]) = Ok (VObject fields').
Proof.
  destruct (normalize "2025-06-01" (VObject [("amount", q 12)])) as [d|m] eqn:E;
    [|vm_compute in E; discriminate E].
  destruct (normalize_only_objects _ _ _ E) as (fields & fields' & _ & ->).
  by exists fields'.
Defined.

Lemma gt_zero_accepted n : amount_accepted (VNumber n) = gt_zero n.
Proof.
  unfold amount_accepted. destruct n as [|neg|x]; simpl; [done|by destruct neg|].
  rewrite andb_true_r.
  destruct (Qle_bool x 0) eqn:E; simpl.
  - by rewrite andb_false_r.
  - rewrite andb_true_r. destruct (Qeq_bool x 0) eqn:E'; [|done].
    apply Qeq_bool_iff in E'. assert (Qle_bool x 0 = true) as H.
    { apply Qle_bool_iff. rewrite E'. apply Qle_refl. }
    congruence.
Qed.

(** X2: when the model returns the amount as a JSON number, a draft comes
    back exactly when the number is greater than 0 and the date is not one
    whose conversion raises; the draft carries that number. *)
Theorem normalize_numeric_amount today fields n :
  get (VObject fields) "amount" = VNumber n ->
  is_ok (normalize today (VObject fields))
  = gt_zero n && negb (unprintable (get (VObject fields) "date"))
  /\ forall d, normalize today (VObject fields) = Ok d -> get d "amount" = VNumber n.
Proof.
  intros Hn. split.
  - rewrite normalize_is_ok. unfold draft_accepted. by rewrite Hn, gt_zero_accepted.
  - intros d Hd. apply normalize_ok in Hd as (_ & -> & _). by rewrite Hn.
Qed.

Lemma normalize_numeric_amount_witness :
  is_ok (normalize "2025-06-01" (VObject [("amount", q (-3))])) = false
  /\ is_ok (normalize "2025-06-01"
              (VObject [("amount", q 12); ("date", VObject [("toString", q 1)])]))
     = false.
Proof.
  split.
  - apply (normalize_numeric_amount "2025-06-01" [("amount", q (-3))]
             (Finite (inject_Z (-3))) eq_refl).
  - apply (normalize_numeric_amount "2025-06-01"
             [("amount", q 12); ("date", VObject [("toString", q 1)])]
             (Finite (inject_Z 12)) eq_refl).
Defined.

Lemma normalize_complete today fields d :
  dateRegex_match today = true ->
  normalize today (VObject fields) = Ok d ->
  (exists a, get d "amount" = VNumber a /\ isNaN a = false)
  /\ dateRegex_test (get d "date") = true
  /\ ToBoolean (get d "description") = true
  /\ (ToBoolean (get d "category") = true \/ get d "category" = VString EmptyString).
Proof.
  intros Htoday H. apply normalize_ok in H as (Ha & -> & -> & -> & ->).
  split; [|split; [|split]].
  - eexists. split; [done|]. unfold draft_accepted, amount_accepted in Ha.
    apply andb_true_iff in Ha as [Ha _].
    apply andb_true_iff in Ha as [_ Ha]. by apply negb_true_iff in Ha.
  - unfold normalized_date.
    destruct (dateRegex_test (get (VObject fields) "date")) eqn:E; [exact E|exact Htoday].
  - unfold normalized_description.
    destruct (ToBoolean (get (VObject fields) "description")) eqn:E; [exact E|done].
  - unfold normalized_category.
    destruct (ToBoolean (get (VObject fields) "category")) eqn:E; auto.
Qed.

(** X3: a returned draft is complete: the amount is a number that is not
    [NaN], the date matches the pattern (as today's date does), the
    description is not empty and the category is never missing. *)
Theorem normalize_complete_draft today fields d :
  dateRegex_match today = true ->
  normalize today (VObject fields) = Ok d ->
  (exists a, get d "amount" = VNumber a /\ isNaN a = false)
  /\ dateRegex_test (get d "date") = true
  /\ ToBoolean (get d "description") = true
  /\ (ToBoolean (get d "category") = true \/ get d "category" = VString EmptyString).
Proof. exact (normalize_complete today fields d). Qed.

Lemma normalize_complete_draft_witness :
  exists d,
    normalize "2025-06-01" (VObject [("amount", VString "12.50")]) = Ok d
    /\ dateRegex_test (get d "date") = true.
Proof.
  eexists. split; [reflexivity|].
  apply (normalize_complete_draft "2025-06-01" [("amount", VString "12.50")] _
           eq_refl eq_refl).
Defined.

(** X4: whatever else the model put into the object is handed on
    unchanged. *)
Theorem normalize_passes_other_fields today fields d k :
  normalize today (VObject fields) = Ok d ->
  k <> "amount" -> k <> "date" -> k <> "description" -> k <> "category" ->
  get d k = get (VObject fields) k.
Proof.
  intros H Ha Hd Hde Hc. rewrite normalize_object in H. cbv zeta in H.
  normalize_cases.
  injection H as <-. rewrite ?set_object. unfold get.
  by rewrite !assoc_get_set_ne by done.
Qed.

Lemma normalize_passes_other_fields_witness :
  exists d,
    normalize "2025-06-01" (VObject [("amount", q 12); ("currency", VString "INR")])
    = Ok d
    /\ get d "currency" = VString "INR".
Proof.
  eexists. split; [reflexivity|].
  apply (normalize_passes_other_fields "2025-06-01"
           [("amount", q 12); ("currency", VString "INR")] _ "currency" eq_refl);
    discriminate.
Defined.

Lemma set_same fields k v :
  get (VObject fields) k = v -> v <> VUndefined -> set (VObject fields) k v = VObject fields.
Proof.
  intros <- H. simpl. by rewrite assoc_set_get.
Qed.

Lemma truthy_defined v : ToBoolean v = true -> v <> VUndefined.
Proof. by intros H ->. Qed.

(** X5: a draft with a positive amount is a fixed point: normalising it
    again, on the same day, changes nothing. *)
Theorem normalize_idempotent today fields d :
  dateRegex_match today = true ->
  normalize today (VObject fields) = Ok d ->
  gt_zero (parseFloat (get (VObject fields) "amount")) = true ->
  normalize today d = Ok d.
Proof.
  intros Htoday H Hpos.
  destruct (normalize_complete _ _ _ Htoday H) as (_ & Hdate & Hdesc & Hcat).
  pose proof (normalize_ok _ _ _ H) as (_ & Hamount & _).
  destruct (normalize_gives_object _ _ _ H) as (f0 & f & _ & ->).
  rewrite normalize_object. cbv zeta.
  set (a := parseFloat (get (VObject fields) "amount")) in *.
  rewrite Hamount.
  pose proof (gt_zero_accepted a) as Hacc. rewrite Hpos in Hacc.
  unfold amount_accepted in Hacc.
  apply andb_true_iff in Hacc as [Hacc Hnan]. apply andb_true_iff in Hacc as [Hacc Hle].
  apply andb_true_iff in Hacc as [Htr _].
  apply negb_true_iff in Hle, Hnan. simpl in Hle, Hnan.
  rewrite Htr. simpl ToNumber. simpl parseFloat.
  change (unprintable (VNumber a)) with false.
  rewrite Hle, Hnan, (dateRegex_test_printable _ Hdate). simpl negb.
  cbv iota. f_equal.
  rewrite (set_same f "amount" (VNumber a) Hamount) by done.
  unfold normalized_date. rewrite Hdate.
  rewrite (set_same f "date" _ eq_refl).
  2:{ intros E. by rewrite E in Hdate. }
  unfold normalized_description. rewrite Hdesc.
  rewrite (set_same f "description" _ eq_refl) by (by apply truthy_defined).
  unfold normalized_category.
  destruct Hcat as [Hcat | Hcat].
  - rewrite Hcat. apply set_same; [done | by apply truthy_defined].
  - rewrite Hcat. simpl ToBoolean. cbv iota. apply set_same; done.
Qed.

Lemma normalize_idempotent_witness :
  exists d,
    normalize "2025-06-01" (VObject [("amount", VString "12.50")]) = Ok d
    /\ normalize "2025-06-01" d = Ok d.
Proof.
  eexists. split; [reflexivity|].
  apply (normalize_idempotent "2025-06-01" [("amount", VString "12.50")] _
           eq_refl eq_refl eq_refl).
Defined.

Fixpoint no_backtick (s : string) : bool :=
  match s with
  | String c r => negb (Ascii.eqb c "`") && no_backtick r
  | EmptyString => true
  end.

Definition LF : string := String "010" EmptyString.

Lemma append_String c r t : String.append (String c r) t = String c (String.append r t).
Proof. reflexivity. Qed.

Lemma append_Empty t : String.append EmptyString t = t.
Proof. reflexivity. Qed.

Lemma remove_fence_app fence body rest :
  no_backtick body = true ->
  remove_fence_from (String "`" fence) O (String.append body rest)
  = String.append body (remove_fence_from (String "`" fence) O rest).
Proof.
  intros H. induction body as [|c r IH]; [done|].
  simpl in H. apply andb_true_iff in H as [Hc Hr]. apply negb_true_iff in Hc.
  rewrite !append_String. cbn [remove_fence_from strip_prefix].
  rewrite Ascii.eqb_sym, Hc. by rewrite IH.
Qed.

Lemma String_append_empty s : String.append s EmptyString = s.
Proof. induction s as [|c r IH]; [done|]. by rewrite append_String, IH. Qed.

Lemma remove_fence_none fence s :
  no_backtick s = true -> remove_fence (String "`" fence) s = s.
Proof.
  intros H. unfold remove_fence.
  rewrite <- (String_append_empty s) at 1.
  rewrite remove_fence_app by done. simpl remove_fence_from. apply String_append_empty.
Qed.

Lemma strip_leading_none s :
  no_backtick s = true -> strip_leading_backticks s = s.
Proof.
  destruct s as [|c r]; [done|]. simpl. intros H.
  apply andb_true_iff in H as [Hc _]. apply negb_true_iff in Hc.
  destruct c as [[] [] [] [] [] [] [] []]; try done.
Qed.

Lemma strip_trailing_none s :
  no_backtick s = true -> strip_trailing_backticks s = s.
Proof.
  induction s as [|c r IH]; [done|]. simpl. intros H.
  apply andb_true_iff in H as [Hc Hr]. apply negb_true_iff in Hc.
  rewrite IH by done. destruct r; [|done]. by rewrite Hc.
Qed.

Lemma no_backtick_app s t :
  no_backtick s = true -> no_backtick t = true -> no_backtick (String.append s t) = true.
Proof.
  intros Hs Ht. induction s as [|c r IH]; [done|]. rewrite append_String. simpl in *.
  apply andb_true_iff in Hs as [Hc Hr]. by rewrite Hc, IH.
Qed.

Lemma trimEnd_line_feed s : trimEnd (String.append s LF) = trimEnd s.
Proof.
  induction s as [|c r IH]; [done|]. rewrite append_String. simpl. by rewrite IH.
Qed.

(** X6: a response without backticks is only trimmed, and a response the
    model wrapped in a [json] code fence, against the prompt, is unwrapped
    to the same text. *)
Theorem cleanResponse_unwraps_fence body :
  no_backtick body = true ->
  cleanResponse body = trim body
  /\ cleanResponse
       (String.append "```json"
          (String.append LF (String.append body (String.append LF "```"))))
     = trim body.
Proof.
  intros H. unfold cleanResponse. split.
  - rewrite (remove_fence_none _ body) by done.
    by rewrite remove_fence_none, strip_leading_none, strip_trailing_none.
  - assert (Hn : no_backtick (String.append body LF) = true)
      by (by apply no_backtick_app).
    assert (H1 : remove_fence "```json"
                   (String.append "```json"
                      (String.append LF (String.append body (String.append LF "```"))))
                 = String.append body (String.append LF "```")).
    { unfold remove_fence, LF. rewrite !append_String, !append_Empty.
      cbn [remove_fence_from strip_prefix Ascii.eqb Bool.eqb String.length].
      rewrite remove_fence_app by done. by rewrite ?append_String, ?append_Empty. }
    rewrite H1.
    assert (H2 : remove_fence "```" (String.append body (String.append LF "```"))
                 = String.append body LF).
    { unfold remove_fence. rewrite remove_fence_app by done.
      unfold LF. by rewrite ?append_String, ?append_Empty. }
    rewrite H2, strip_leading_none, strip_trailing_none by done.
    unfold trim. by rewrite trimEnd_line_feed.
Qed.

Lemma cleanResponse_unwraps_fence_witness :
  cleanResponse
    (String.append "```json" (String.append LF (String.append "{ }" (String.append LF "```"))))
  = "{ }".
Proof.
  apply (cleanResponse_unwraps_fence "{ }" eq_refl).
Defined.

(** X7: [scanReceipt] resolves exactly when there is a signed-in user and
    a file, the model answered, the cleaned answer parsed to an object, its
    amount passed the checks of lines 104-113 (truthy, convertible, not
    [<= 0] as a number, with a decimal number to read) and its date is not
    one whose conversion raises; every rejection, whatever its cause,
    carries the same prefix. *)
Theorem scanReceipt_resolves_iff userId receiptFile generateContent JSON_parse today :
  (is_ok (scanReceipt userId receiptFile generateContent JSON_parse today) = true <->
   exists uid file text fields,
     userId = Some uid /\ receiptFile = Some file /\ generateContent = Ok text
     /\ JSON_parse (cleanResponse text) = Some (VObject fields)
     /\ draft_accepted (VObject fields) = true)
  /\ (forall m,
        scanReceipt userId receiptFile generateContent JSON_parse today = Throw m ->
        startsWith m "Failed to scan receipt: " = true).
Proof.
  split.
  - unfold scanReceipt. split.
    + destruct userId as [uid|]; [|done]. destruct receiptFile as [file|]; [|done].
      destruct generateContent as [text|]; [|done].
      destruct (JSON_parse (cleanResponse text)) as [v|] eqn:Ep; [|done].
      destruct (normalize today v) as [d|m] eqn:En; [|done]. intros _.
      destruct (normalize_gives_object _ _ _ En) as (fields & _ & -> & _).
      exists uid, file, text, fields. apply normalize_ok in En as [Ha _]. done.
    + intros (uid & file & text & fields & -> & -> & -> & Hp & Ha).
      rewrite Hp. rewrite <- (normalize_is_ok today fields) in Ha.
      by destruct (normalize today (VObject fields)).
  - intros m. unfold scanReceipt.
    destruct (match userId with Some _ => _ | None => _ end); [done|].
    by intros [= <-].
Qed.

(* --------------------------------------------------------------------- *)
(** ** The server actions                                                 *)
(* --------------------------------------------------------------------- *)

(** X8: when [updateTransaction] rejects, the store is as it was.  That
    holds also when the row had already been rewritten inside the database
    transaction and the balance update then found no account: the row keeps
    its old values. *)
Theorem updateTransaction_rejects_clean auth tid data db m db' :
  updateTransaction auth tid data db = (Throw m, db') -> db' = db.
Proof.
  unfold updateTransaction.
  destruct auth as [clerkId|]; [|by intros [= _ <-]].
  destruct (users db !! clerkId) as [user|]; [|by intros [= _ <-]].
  destruct (transaction_findUnique db tid (user_id user)) as [original|];
    [|by intros [= _ <-]].
  destruct (db_transaction _ db) as [[r|m'] db''] eqn:E; [done|].
  intros [= _ <-]. unfold db_transaction in E.
  destruct (bind _ _ db) as [[r|m''] db3]; [done|]. by injection E as _ <-.
Qed.

Definition sample_move : TransactionData :=
  {| type := EXPENSE; amount := 100; description := "Groceries";
     accountId := "acc_2"; category := "food"; date := mkDate 2025 4 30;
     isRecurring := false; recurringInterval := None |}.

Lemma updateTransaction_rejects_clean_witness :
  exists m,
    updateTransaction (Some "clerk_1") "tx_1" sample_move sample_db = (Throw m, sample_db)
    /\ transactions sample_db !! "tx_1" = Some sample_transaction.
Proof.
  destruct (updateTransaction (Some "clerk_1") "tx_1" sample_move sample_db)
    as [[r|m] db'] eqn:E; [vm_compute in E; discriminate E|].
  exists m. rewrite (updateTransaction_rejects_clean _ _ _ _ _ _ E).
  split; reflexivity.
Defined.

(** X9: a successful update touches the balance of one account only, the
    one the new values name.  When the edit moves the row to another
    account, the account it came from keeps the balance it had, the old
    amount still counted in it. *)
Theorem updateTransaction_other_accounts auth tid data db r db' aid :
  updateTransaction auth tid data db = (Ok r, db') ->
  aid <> accountId data ->
  accounts db' !! aid = accounts db !! aid.
Proof.
  intros H Hne.
  destruct (updateTransaction_inv _ _ _ _ _ _ H) as (o & a & _ & _ & Hacc & _).
  cbv zeta in Hacc. rewrite Hacc. by apply lookup_insert_ne.
Qed.

Definition second_account : Account :=
  {| account_id := "acc_2"; account_userId := "user_1"; account_name := "Savings";
     balance := 200; isDefault := false |}.

Definition two_account_db : Db :=
  {| users := {[ "clerk_1" := sample_user ]};
     accounts := <[ "acc_2" := second_account ]> {[ "acc_1" := sample_account ]};
     transactions := {[ "tx_1" := sample_transaction ]} |}.

Lemma updateTransaction_other_accounts_witness :
  exists r db',
    updateTransaction (Some "clerk_1") "tx_1" sample_move two_account_db = (Ok r, db')
    /\ accountId (fields (result_data r)) = "acc_2"
    /\ accounts db' !! "acc_1" = Some sample_account.
Proof.
  destruct (updateTransaction (Some "clerk_1") "tx_1" sample_move two_account_db)
    as [[r|m] db'] eqn:E; [|vm_compute in E; discriminate E].
  exists r, db'. split; [reflexivity|]. split.
  - destruct (updateTransaction_inv _ _ _ _ _ _ E) as (_ & _ & _ & _ & _ & _ & -> & _).
    reflexivity.
  - rewrite (updateTransaction_other_accounts _ _ _ _ _ _ "acc_1" E); [reflexivity|].
    discriminate.
Defined.

(** X10: [updateTransaction] resolves exactly when the session has a
    user, the row exists and is that user's, and the account the new values
    name exists; the owner of that account is not looked at. *)
Theorem updateTransaction_resolves_iff auth tid data db :
  is_ok (fst (updateTransaction auth tid data db)) = true <->
  exists clerkId user original account,
    auth = Some clerkId
    /\ users db !! clerkId = Some user
    /\ transactions db !! tid = Some original
    /\ userId original = user_id user
    /\ accounts db !! accountId data = Some account.
Proof.
  unfold updateTransaction. split.
  - destruct auth as [clerkId|]; [|done].
    destruct (users db !! clerkId) as [user|] eqn:Eu; [|done].
    destruct (transaction_findUnique db tid (user_id user)) as [original|] eqn:Et; [|done].
    apply transaction_findUnique_Some in Et as [Et Hu].
    unfold db_transaction, bind, transaction_update, account_update, ret.
    unfold transaction_findUnique. rewrite Et, Hu, String.eqb_refl. simpl.
    destruct (accounts db !! accountId data) as [account|] eqn:Ea; [|done].
    intros _. by exists clerkId, user, original, account.
  - intros (clerkId & user & original & account & -> & -> & Et & Hu & Ea).
    unfold db_transaction, bind, transaction_update, account_update, ret.
    unfold transaction_findUnique. rewrite Et, Hu, String.eqb_refl. simpl.
    by rewrite Ea.
Qed.

(** X11: [createTransaction] resolves exactly when the session has a user,
    the rate limiter lets the request through, the account exists and is
    that user's, and the key of the new row is free. *)
Theorem createTransaction_resolves_iff auth decision newId data db :
  is_ok (fst (createTransaction auth decision newId data db)) = true <->
  exists clerkId user account,
    auth = Some clerkId
    /\ decision = Allowed
    /\ users db !! clerkId = Some user
    /\ accounts db !! accountId data = Some account
    /\ account_userId account = user_id user
    /\ transactions db !! newId = None.
Proof.
  unfold createTransaction.
  rewrite (createTransaction_on_resolves store_up auth decision newId data db).
  unfold store_up. tauto.
Qed.

(** X12: [getTransaction] gives a row only to the user it belongs to, and
    gives the row the store holds under that key. *)
Theorem getTransaction_own_rows auth tid db t :
  getTransaction auth tid db = Ok t ->
  exists clerkId user,
    auth = Some clerkId
    /\ users db !! clerkId = Some user
    /\ transactions db !! tid = Some t
    /\ userId t = user_id user.
Proof.
  unfold getTransaction. destruct auth as [clerkId|]; [|done].
  destruct (users db !! clerkId) as [user|] eqn:Eu; [|done].
  destruct (transaction_findUnique db tid (user_id user)) as [t'|] eqn:Et; [|done].
  intros [= ->]. apply transaction_findUnique_Some in Et as [Et Hu].
  by exists clerkId, user.
Qed.

Lemma getTransaction_own_rows_witness :
  getTransaction (Some "clerk_1") "tx_1" sample_db = Ok sample_transaction
  /\ userId sample_transaction = "user_1".
Proof.
  split; [reflexivity|].
  destruct (getTransaction_own_rows (Some "clerk_1") "tx_1" sample_db sample_transaction
              eq_refl) as (c & u & Hc & Hu & _ & ->).
  vm_compute in Hc. injection Hc as <-. vm_compute in Hu. by injection Hu as <-.
Defined.

(** X13: what [createTransaction] resolves to is what [getTransaction]
    then reads under the new key, for the same user. *)
Theorem createTransaction_then_get auth decision newId data db r db' :
  createTransaction auth decision newId data db = (Ok r, db') ->
  getTransaction auth newId db' = Ok (result_data r)
  /\ nextRecurringDate (result_data r) = nextRecurringDate_of data.
Proof.
  unfold createTransaction, createTransaction_on.
  destruct auth as [clerkId|]; [|done]. destruct decision; try done.
  destruct (users db !! clerkId) as [user|] eqn:Eu; [|done].
  destruct (account_findUnique db (accountId data) (user_id user)) as [account|] eqn:Ea;
    [|done].
  apply account_findUnique_Some in Ea as [Ea _].
  unfold db_transaction, createTransaction_body, bind, attempt, store_up,
    transaction_create, account_update, ret.
  destruct (transactions db !! newId) eqn:Et; [done|].
  simpl. rewrite Ea. simpl. intros [= <- <-]. simpl.
  unfold getTransaction, transaction_findUnique. simpl.
  by rewrite Eu, lookup_insert_eq, String.eqb_refl.
Qed.

Lemma createTransaction_then_get_witness :
  exists r db',
    createTransaction (Some "clerk_1") Allowed "tx_2" sample_data sample_db = (Ok r, db')
    /\ getTransaction (Some "clerk_1") "tx_2" db' = Ok (result_data r).
Proof.
  destruct (createTransaction (Some "clerk_1") Allowed "tx_2" sample_data sample_db)
    as [[r|m] db'] eqn:E; [|vm_compute in E; discriminate E].
  exists r, db'. split; [reflexivity|].
  apply (createTransaction_then_get _ _ _ _ _ _ _ E).
Defined.

(** X14: editing a transaction and then editing it back to its stored
    values, on the same account, restores the balance and the values. *)
Theorem updateTransaction_undo auth tid data db original r1 db1 r2 db2 account :
  transactions db !! tid = Some original ->
  accountId data = accountId (fields original) ->
  accounts db !! accountId data = Some account ->
  updateTransaction auth tid data db = (Ok r1, db1) ->
  updateTransaction auth tid (fields original) db1 = (Ok r2, db2) ->
  fields (result_data r2) = fields original
  /\ exists account2,
       accounts db2 !! accountId data = Some account2
       /\ (balance account2 == balance account)%Q
       /\ account_userId account2 = account_userId account.
Proof.
  intros Ho Hsame Ha H1 H2.
  destruct (updateTransaction_inv _ _ _ _ _ _ H1)
    as (o1 & a1 & Ho1 & Ha1 & Hacc1 & Htx1 & Hf1 & _).
  destruct (updateTransaction_inv _ _ _ _ _ _ H2)
    as (o2 & a2 & Ho2 & Ha2 & Hacc2 & _ & Hf2 & _).
  cbv zeta in Hacc1, Hacc2.
  rewrite Ho in Ho1. injection Ho1 as <-. rewrite Ha in Ha1. injection Ha1 as <-.
  rewrite Htx1, lookup_insert_eq in Ho2. injection Ho2 as <-.
  rewrite <- Hsame, Hacc1, lookup_insert_eq in Ha2. injection Ha2 as <-.
  split; [done|]. rewrite <- Hsame in Hacc2. rewrite Hacc2, lookup_insert_eq.
  eexists. split; [done|]. rewrite Hf1. simpl. split; [ring|done].
Qed.

Lemma updateTransaction_undo_witness :
  exists r1 db1 r2 db2 account2,
    updateTransaction (Some "clerk_1") "tx_1" sample_edit sample_db = (Ok r1, db1)
    /\ updateTransaction (Some "clerk_1") "tx_1" (fields sample_transaction) db1
       = (Ok r2, db2)
    /\ accounts db2 !! "acc_1" = Some account2
    /\ (balance account2 == 500)%Q.
Proof.
  destruct (updateTransaction (Some "clerk_1") "tx_1" sample_edit sample_db)
    as [[r1|m] db1] eqn:E1; [|vm_compute in E1; discriminate E1].
  destruct (updateTransaction (Some "clerk_1") "tx_1" (fields sample_transaction) db1)
    as [[r2|m] db2] eqn:E2.
  - assert (Ho : transactions sample_db !! "tx_1" = Some sample_transaction)
      by reflexivity.
    assert (Ha : accounts sample_db !! accountId sample_edit = Some sample_account)
      by reflexivity.
    destruct (updateTransaction_undo (Some "clerk_1") "tx_1" sample_edit sample_db
                sample_transaction r1 db1 r2 db2 sample_account
                Ho eq_refl Ha E1 E2) as (_ & a2 & Ha2 & Hb & _).
    by exists r1, db1, r2, db2, a2.
  - exfalso. injection E1 as _ <-. vm_compute in E2. discriminate E2.
Defined.

(** X15: two successive creations on one account: the second starts from
    the balance the first has written, so the balance ends as the first
    balance plus the first signed amount, plus the second, added in that
    order. *)
Theorem createTransaction_twice auth id1 id2 data1 data2 db r1 db1 r2 db2 :
  accountId data2 = accountId data1 ->
  createTransaction auth Allowed id1 data1 db = (Ok r1, db1) ->
  createTransaction auth Allowed id2 data2 db1 = (Ok r2, db2) ->
  exists account account2,
    accounts db !! accountId data1 = Some account
    /\ accounts db2 !! accountId data1 = Some account2
    /\ balance account2
       = (balance account + signed_amount (type data1) (amount data1)
          + signed_amount (type data2) (amount data2))%Q.
Proof.
  intros Hsame H1 H2.
  pose proof (createTransaction_inv auth Allowed id1 data1 db) as A1.
  rewrite H1 in A1. destruct A1 as (a1 & Ha1 & Hacc1 & _).
  pose proof (createTransaction_inv auth Allowed id2 data2 db1) as A2.
  rewrite H2 in A2. destruct A2 as (a2 & Ha2 & Hacc2 & _).
  rewrite Hsame in *. rewrite Hacc1, lookup_insert_eq in Ha2. injection Ha2 as <-.
  exists a1. eexists. split; [done|]. rewrite Hacc2, lookup_insert_eq.
  split; [done|]. simpl.
  unfold signed_amount. by destruct (type data1), (type data2).
Qed.

Definition sample_refund : TransactionData :=
  {| type := INCOME; amount := 100; description := "Rent returned"; accountId := "acc_1";
     category := "housing"; date := mkDate 2024 1 2; isRecurring := false;
     recurringInterval := None |}.

Lemma createTransaction_twice_witness :
  exists r1 db1 r2 db2 account2,
    createTransaction (Some "clerk_1") Allowed "tx_2" sample_data sample_db = (Ok r1, db1)
    /\ createTransaction (Some "clerk_1") Allowed "tx_3" sample_refund db1 = (Ok r2, db2)
    /\ accounts db2 !! "acc_1" = Some account2
    /\ (balance account2 == 500)%Q.
Proof.
  destruct (createTransaction (Some "clerk_1") Allowed "tx_2" sample_data sample_db)
    as [[r1|m] db1] eqn:E1; [|vm_compute in E1; discriminate E1].
  destruct (createTransaction (Some "clerk_1") Allowed "tx_3" sample_refund db1)
    as [[r2|m] db2] eqn:E2.
  - destruct (createTransaction_twice (Some "clerk_1") "tx_2" "tx_3" sample_data
                sample_refund sample_db r1 db1 r2 db2 eq_refl E1 E2)
      as (a & a2 & Ha & Ha2 & Hb).
    exists r1, db1, r2, db2, a2. split; [reflexivity|]. split; [exact E2|].
    split; [exact Ha2|].
    assert (a = sample_account) as -> by (vm_compute in Ha; by injection Ha as <-).
    rewrite Hb. reflexivity.
  - exfalso. injection E1 as _ <-. vm_compute in E2. discriminate E2.
Defined.

(* --------------------------------------------------------------------- *)
(** ** The form, continued                                                *)
(* --------------------------------------------------------------------- *)

(** One draft at a time: a timer is pending only while the flag is set, and
    never more than one. *)
Definition one_at_a_time (st : Component) : Prop :=
  (isProcessingScan st = false -> timers st = [])
  /\ (length (timers st) <= 1)%nat.

Lemma render_frame st :
  isProcessingScan (render st) = isProcessingScan st
  /\ timers (render st) = timers st
  /\ toasts (render st) = toasts st
  /\ form_type (values (render st)) = form_type (values st)
  /\ form_amount (values (render st)) = form_amount (values st)
  /\ form_description (values (render st)) = form_description (values st)
  /\ form_date (values (render st)) = form_date (values st)
  /\ form_accountId (values (render st)) = form_accountId (values st)
  /\ form_isRecurring (values (render st)) = form_isRecurring (values st)
  /\ form_recurringInterval (values (render st)) = form_recurringInterval (values st).
Proof.
  unfold render, typeEffect. repeat (case_match; simpl; try done).
Qed.

Lemma step_one_at_a_time props Date_new e st :
  one_at_a_time st -> one_at_a_time (step props Date_new e st).
Proof.
  intros [Hidle Hlen]. unfold step, one_at_a_time.
  destruct (render_frame (handle props Date_new e st)) as (-> & -> & _).
  destruct e as [draft| | | | | | | | |]; simpl; try done.
  - unfold handleScanComplete.
    destruct (negb (ToBoolean draft) || isProcessingScan st) eqn:G; [done|].
    apply orb_false_iff in G as [_ G]. specialize (Hidle G).
    pose proof (applyDraft_frame Date_new draft (with_flag st true)) as H.
    cbv zeta in H.
    destruct (applyDraft Date_new draft (with_flag st true)) as [st' raised].
    simpl in H. destruct H as (_ & Hf & _ & _ & Hraised & Hdone).
    destruct raised.
    + destruct (Hraised eq_refl) as [_ Ht]. simpl. rewrite Ht. simpl. rewrite Hidle.
      split; [done|simpl; lia].
    + destruct (Hdone eq_refl) as [_ Ht]. rewrite Ht, Hf. simpl. rewrite Hidle. simpl.
      split; [discriminate|lia].
  - destruct (timers st) as [|d rest] eqn:Et.
    { rewrite Et. split; [done|simpl; lia]. }
    simpl in Hlen. assert (rest = []) as -> by (destruct rest; [done|simpl in Hlen; lia]).
    unfold timerCallback. repeat (case_match; simpl; try done); split; try done; try lia.
    all: intros Hf; specialize (Hidle Hf); done.
Qed.

(** X16: in every state the mounted form can reach, the effect has caught
    up with the type, and drafts are applied one at a time: a timer is
    pending only while [isProcessingScan] is set, and at most one. *)
Theorem reachable_invariant props Date_new now st :
  reachable props Date_new now st -> settled st /\ one_at_a_time st.
Proof.
  induction 1 as [|e st Hr [IH1 IH2]].
  - split; [apply mount_settled|].
    unfold one_at_a_time, mount, typeEffect. simpl.
    rewrite option_type_eqb_refl. simpl. split; [done|lia].
  - split; [by apply step_settled | by apply step_one_at_a_time].
Qed.

Lemma reachable_invariant_witness :
  (length (timers (run sample_props sample_Date_new
                     [ScanComplete sample_draft; ScanComplete other_draft]
                     (mount sample_props sample_now))) <= 1)%nat.
Proof.
  pose proof (reachable_invariant sample_props sample_Date_new sample_now _
                (reachable_step _ _ _ (ScanComplete other_draft) _
                   (reachable_step _ _ _ (ScanComplete sample_draft) _
                      (reachable_mount _ _ _)))) as [_ [_ H]].
  exact H.
Defined.

(** What the handler makes of the draft's amount: the number it puts into
    the input, if any. *)
Definition usable_amount (amount : value) : option number :=
  match amount with
  | VUndefined | VNull => None
  | a => if negb (isNaN (parseFloat a)) && gt_zero (parseFloat a)
         then Some (parseFloat a) else None
  end.

Lemma handler_writes props Date_new st fields :
  isProcessingScan st = false ->
  text_or_falsy (get (VObject fields) "description") = true ->
  let d := VObject fields in
  let st1 := step props Date_new (ScanComplete d) st in
  form_amount (values st1)
  = match usable_amount (get d "amount") with
    | Some n => NumberText n
    | None => form_amount (values st)
    end
  /\ toasts st1
     = (toasts st ++
        match get d "amount", usable_amount (get d "amount") with
        | _, Some _ => []
        | (VUndefined | VNull), None => [toast_warning msg_extract_amount]
        | _, None => [toast_warning msg_autofill_amount]
        end)%list
  /\ form_date (values st1)
     = match (if ToBoolean (get d "date") then Date_new (get d "date") else None) with
       | Some date => Some date
       | None => form_date (values st)
       end
  /\ form_description (values st1)
     = match get d "description" with
       | VString s => if String.eqb (trim s) EmptyString
                      then form_description (values st) else s
       | _ => form_description (values st)
       end
  /\ form_accountId (values st1) = form_accountId (values st)
  /\ form_isRecurring (values st1) = form_isRecurring (values st)
  /\ form_recurringInterval (values st1) = form_recurringInterval (values st).
Proof.
  intros Hflag Hdesc d st1. subst st1 d. unfold step.
  destruct (render_frame (handle props Date_new (ScanComplete (VObject fields)) st))
    as (_ & _ & -> & _ & -> & -> & -> & -> & -> & ->).
  cbn [handle]. unfold handleScanComplete. rewrite Hflag.
  change (ToBoolean (VObject fields)) with true. cbn [negb orb].
  unfold applyDraft. cbn [typeof_object negb].
  rewrite (nonblank_text _ Hdesc). unfold usable_amount.
  destruct (get (VObject fields) "amount") as [| |b|n|s|items|fs],
           (get (VObject fields) "description") as [| |b'|n'|s'|items'|fs'],
           (ToBoolean (get (VObject fields) "date"));
    simpl; try done;
    repeat (case_match; simpl; try done);
    rewrite ?app_nil_r; (repeat split); try done; simplify_eq.
Qed.





















(* --------------------------------------------------------------------- *)
(** ** The receipt scanner                                                *)
(* --------------------------------------------------------------------- *)

(** X22: however often the effects of the scanner run again, a scan
    result is handed to the form once: after one run a second run hands over
    nothing, shows nothing and changes nothing. *)
Theorem scan_result_delivered_once sc :
  let '(sc1, _, _) := scannerEffects sc in
  scannerEffects sc1 = (sc1, [], None).
Proof.
  unfold scannerEffects, successEffect, errorEffect.
  destruct sc as [[r|] loading [m|] shown]; simpl;
    destruct loading, shown; simpl; try done;
    try (destruct (scan_success r && ToBoolean (scan_data r)); simpl; done).
Qed.

Definition resolved_scanner : Scanner :=
  {| scannedData := Some {| scan_success := true; scan_data := sample_draft |};
     scanReceiptLoading := false; scanError := None; hasShownToastRef := false |}.

(** X23: the file checks come after the reset of [hasShownToastRef].
    Choosing a file that is too large, or that is no image, requests no scan
    but re-arms the effect: at its next run the result of the previous scan
    is handed to the form a second time. *)
Theorem rejected_file_redelivers_previous_draft file sc r :
  scannedData sc = Some r ->
  scanReceiptLoading sc = false ->
  scan_success r = true ->
  ToBoolean (scan_data r) = true ->
  (maxFileSize < file_size file \/ startsWith (file_type file) "image/" = false) ->
  let '(sc1, toasts1, requested) := handleReceiptScan file sc in
  requested = false
  /\ (exists message, toasts1 = [toast_error message])
  /\ snd (scannerEffects sc1) = Some (scan_data r).
Proof.
  intros Hdata Hload Hok Htruthy Hbad. unfold handleReceiptScan.
  assert (Hdeliver : snd (scannerEffects (with_shown sc false)) = Some (scan_data r)).
  { unfold scannerEffects, successEffect, errorEffect. simpl.
    rewrite Hdata, Hload, Hok, Htruthy. simpl. rewrite Hload.
    by destruct (scanError sc). }
  destruct (maxFileSize <? file_size file) eqn:E.
  - split; [done|]. split; [eauto|done].
  - apply Z.ltb_ge in E. destruct Hbad as [Hbad | Hbad]; [lia|].
    rewrite Hbad. simpl. split; [done|]. split; [eauto|done].
Qed.

Lemma rejected_file_redelivers_previous_draft_witness :
  let sc := fst (fst (scannerEffects resolved_scanner)) in
  snd (scannerEffects sc) = None
  /\ snd (scannerEffects
            (fst (fst (handleReceiptScan
                         {| file_type := "application/pdf"; file_size := 2048 |} sc))))
     = Some sample_draft.
Proof.
  cbv zeta. split; [reflexivity|].
  pose proof (rejected_file_redelivers_previous_draft
                {| file_type := "application/pdf"; file_size := 2048 |}
                (fst (fst (scannerEffects resolved_scanner)))
                {| scan_success := true; scan_data := sample_draft |}
                eq_refl eq_refl eq_refl eq_refl (or_intror eq_refl)) as H.
  destruct (handleReceiptScan _ _) as [[sc1 ts] rq]. apply H.
Defined.

(* --------------------------------------------------------------------- *)
(** ** Recurrence, continued                                              *)
(* --------------------------------------------------------------------- *)

(** X24: for a transaction dated on the 28th or earlier, the monthly
    recurrence is the same day of the next month, December leading to
    January of the next year. *)
Theorem monthly_keeps_day_up_to_28 dt :
  valid_date dt ->
  getDate dt <= 28 ->
  calculateNextRecurringDate dt MONTHLY
  = {| getFullYear := if getMonth dt =? 11 then getFullYear dt + 1 else getFullYear dt;
       getMonth := if getMonth dt =? 11 then 0 else getMonth dt + 1;
       getDate := getDate dt;
       timeInDay := timeInDay dt |}.
Proof.
  intros [Hv _] H28. pose proof Hv as (Hm & Hd & Ht).
  unfold calculateNextRecurringDate, setMonth. rewrite dateOfMakeDay_carry.
  pose proof (nextMonth_carry (getFullYear dt) (getMonth dt) Hm) as Hc.
  pose proof (nextMonth_start (getFullYear dt) (getMonth dt) Hm) as [_ Hr].
  rewrite <- Hc in Hr. simpl snd in Hr.
  rewrite dateOfMakeDay_overflow by (done || lia).
  unfold overflowInto.
  pose proof (daysInMonth_bounds (getFullYear dt + (getMonth dt + 1) / 12)
                ((getMonth dt + 1) mod 12)) as Hb.
  destruct (getDate dt <=? _) eqn:E; [|apply Z.leb_gt in E; lia].
  clear E Hb Hr Hc. destruct (getMonth dt =? 11) eqn:E11.
  - apply Z.eqb_eq in E11. rewrite E11.
    change ((11 + 1) / 12) with 1. by change ((11 + 1) mod 12) with 0.
  - apply Z.eqb_neq in E11. rewrite Z.div_small, Z.mod_small by lia.
    by rewrite Z.add_0_r.
Qed.

Lemma monthly_keeps_day_up_to_28_witness :
  calculateNextRecurringDate (mkDate 2024 11 15) MONTHLY = mkDate 2025 0 15.
Proof.
  apply (monthly_keeps_day_up_to_28 (mkDate 2024 11 15)).
  - unfold valid_date, valid_fields. vm_compute. (repeat split); congruence.
  - vm_compute. congruence.
Defined.

(** X25: the yearly recurrence is the same day and month of the next
    year, except for February 29th, which leads to March 1st. *)
Theorem yearly_keeps_day_except_leap_day dt :
  valid_date dt ->
  calculateNextRecurringDate dt YEARLY
  = if (getMonth dt =? 1) && (getDate dt =? 29)
    then {| getFullYear := getFullYear dt + 1; getMonth := 2; getDate := 1;
            timeInDay := timeInDay dt |}
    else {| getFullYear := getFullYear dt + 1; getMonth := getMonth dt;
            getDate := getDate dt; timeInDay := timeInDay dt |}.
Proof.
  intros [Hv _]. pose proof Hv as (Hm & Hd & Ht). pose proof (valid_day_bounds dt Hv) as H31.
  unfold calculateNextRecurringDate, setFullYear.
  rewrite dateOfMakeDay_overflow by done. unfold overflowInto.
  destruct ((getMonth dt =? 1) && (getDate dt =? 29)) eqn:E.
  - apply andb_true_iff in E as [E1 E2]. apply Z.eqb_eq in E1, E2.
    rewrite E1, E2 in *. unfold daysInMonth in *. simpl in *.
    assert (isLeapYear (getFullYear dt) = true) as Hleap
      by (destruct (isLeapYear (getFullYear dt)); [done|lia]).
    assert (isLeapYear (getFullYear dt + 1) = false) as Hnext.
    { revert Hleap. unfold isLeapYear.
      destruct (getFullYear dt mod 4 =? 0) eqn:A4; simpl.
      - intros _. apply Z.eqb_eq in A4.
        assert ((getFullYear dt + 1) mod 4 = 1) as B4 by (Z.div_mod_to_equations; lia).
        assert ((getFullYear dt + 1) mod 400 <> 0) as B400
          by (Z.div_mod_to_equations; lia).
        rewrite B4. apply Z.eqb_neq in B400. by rewrite B400.
      - intros A400. apply Z.eqb_eq in A400. apply Z.eqb_neq in A4.
        exfalso. Z.div_mod_to_equations. lia. }
    rewrite Hnext. done.
  - destruct (getDate dt <=? daysInMonth (getFullYear dt + 1) (getMonth dt)) eqn:E'; [done|].
    exfalso. apply Z.leb_gt in E'. apply andb_false_iff in E.
    unfold daysInMonth in *.
    destruct (getMonth dt =? 1) eqn:M1.
    + destruct E as [E|E]; [done|]. apply Z.eqb_neq in E.
      destruct (isLeapYear (getFullYear dt)), (isLeapYear (getFullYear dt + 1)); lia.
    + destruct ((getMonth dt =? 3) || (getMonth dt =? 5) || (getMonth dt =? 8)
                || (getMonth dt =? 10)); lia.
Qed.

Lemma yearly_keeps_day_except_leap_day_witness :
  calculateNextRecurringDate (mkDate 2024 1 29) YEARLY = mkDate 2025 2 1.
Proof.
  apply (yearly_keeps_day_except_leap_day (mkDate 2024 1 29)).
  unfold valid_date, valid_fields. vm_compute. (repeat split); congruence.
Defined.

(* --------------------------------------------------------------------- *)
(** ** Day numbers determine dates                                        *)
(* --------------------------------------------------------------------- *)

Lemma month_cases m :
  0 <= m <= 11 ->
  m = 0 \/ m = 1 \/ m = 2 \/ m = 3 \/ m = 4 \/ m = 5 \/ m = 6 \/ m = 7
  \/ m = 8 \/ m = 9 \/ m = 10 \/ m = 11.
Proof. lia. Qed.

Lemma dayInYear_bounds y m d :
  0 <= m <= 11 -> 1 <= d <= daysInMonth y m ->
  0 <= daysBeforeMonth y m + d - 1 < DaysInYear y.
Proof.
  intros Hm Hd. apply month_cases in Hm.
  unfold daysBeforeMonth, daysInMonth, DaysInYear in *.
  repeat (destruct Hm as [-> | Hm]); try subst m; simpl in *;
    destruct (isLeapYear y); lia.
Qed.

Lemma DayFromYear_mono y1 y2 :
  y1 < y2 -> DayFromYear y1 + DaysInYear y1 <= DayFromYear y2.
Proof.
  intros H. rewrite <- DayFromYear_succ. unfold DayFromYear.
  Z.div_mod_to_equations. lia.
Qed.

Lemma daysBeforeMonth_mono y m1 m2 :
  0 <= m1 -> m1 < m2 -> m2 <= 11 ->
  daysBeforeMonth y m1 + daysInMonth y m1 <= daysBeforeMonth y m2.
Proof.
  intros H1 H12 H2.
  assert (Hm1 : 0 <= m1 <= 11) by lia. assert (Hm2 : 0 <= m2 <= 11) by lia.
  apply month_cases in Hm1, Hm2.
  unfold daysBeforeMonth, daysInMonth.
  repeat (destruct Hm1 as [-> | Hm1]); try subst m1;
    repeat (destruct Hm2 as [-> | Hm2]); try subst m2; try lia; simpl;
    destruct (isLeapYear y); lia.
Qed.

Lemma Day_injective a b :
  valid_fields a -> valid_fields b -> Day a = Day b ->
  timeInDay a = timeInDay b -> a = b.
Proof.
  intros (Hma & Hda & _) (Hmb & Hdb & _) HD Ht.
  unfold Day in HD. rewrite !MakeDay_in_year in HD by done. unfold monthStart in HD.
  pose proof (dayInYear_bounds _ _ _ Hma Hda) as Ba.
  pose proof (dayInYear_bounds _ _ _ Hmb Hdb) as Bb.
  assert (Hy : getFullYear a = getFullYear b).
  { destruct (Z.lt_trichotomy (getFullYear a) (getFullYear b)) as [L | [E | L]]; [|done|].
    - pose proof (DayFromYear_mono _ _ L). lia.
    - pose proof (DayFromYear_mono _ _ L). lia. }
  rewrite Hy in *.
  assert (Hm : getMonth a = getMonth b).
  { destruct (Z.lt_trichotomy (getMonth a) (getMonth b)) as [L | [E | L]]; [|done|].
    - pose proof (daysBeforeMonth_mono (getFullYear b) _ _ (proj1 Hma) L (proj2 Hmb)). lia.
    - pose proof (daysBeforeMonth_mono (getFullYear b) _ _ (proj1 Hmb) L (proj2 Hma)). lia. }
  rewrite Hm in *.
  assert (Hd : getDate a = getDate b) by lia.
  destruct a, b. simpl in *. by subst.
Qed.

(** X28: seven daily steps are one weekly step. *)
Theorem weekly_is_seven_daily dt :
  valid_date dt ->
  Nat.iter 7 (fun d => calculateNextRecurringDate d DAILY) dt
  = calculateNextRecurringDate dt WEEKLY.
Proof.
  intros [Hv _].
  assert (Hn : forall n,
             valid_fields (Nat.iter n (fun d => calculateNextRecurringDate d DAILY) dt)
             /\ timeInDay (Nat.iter n (fun d => calculateNextRecurringDate d DAILY) dt)
                = timeInDay dt
             /\ Day (Nat.iter n (fun d => calculateNextRecurringDate d DAILY) dt)
                = Day dt + Z.of_nat n).
  { induction n as [|n (IHv & IHt & IHd)].
    - simpl. (repeat split); try apply Hv. lia.
    - rewrite Nat.iter_succ.
      destruct (calculateNextRecurringDate_day _ DAILY IHv) as (Hv' & Ht' & Hd').
      split; [done|]. split; [congruence|]. rewrite Hd', IHd. lia. }
  destruct (Hn 7%nat) as (Hv7 & Ht7 & Hd7).
  destruct (calculateNextRecurringDate_day dt WEEKLY Hv) as (Hvw & Htw & Hdw).
  apply Day_injective; try done.
  - rewrite Hd7, Hdw. lia.
  - congruence.
Qed.

Lemma weekly_is_seven_daily_witness :
  Nat.iter 7 (fun d => calculateNextRecurringDate d DAILY) (mkDate 2024 1 26)
  = mkDate 2024 2 4.
Proof.
  rewrite (weekly_is_seven_daily (mkDate 2024 1 26)); [reflexivity|].
  unfold valid_date, valid_fields. vm_compute. (repeat split); congruence.
Defined.

(* --------------------------------------------------------------------- *)
(** ** From the server to the form                                        *)
(* --------------------------------------------------------------------- *)

(** X29: what the form does with a draft [scanReceipt] returned.  Its
    amount is a number, so the warning for a missing amount cannot occur: the
    amount input gets the number when it is positive, and otherwise stays as
    it is under the auto-fill warning.  Its description is never absent, so a
    description that is a string is written unless it is blank. *)
Theorem server_draft_in_form props Date_new st today fields d :
  normalize today (VObject fields) = Ok d ->
  isProcessingScan st = false ->
  text_or_falsy (get d "description") = true ->
  let a := parseFloat (get (VObject fields) "amount") in
  let st1 := step props Date_new (ScanComplete d) st in
  form_amount (values st1) = (if gt_zero a then NumberText a else form_amount (values st))
  /\ toasts st1
     = (toasts st ++ if gt_zero a then [] else [toast_warning msg_autofill_amount])%list
  /\ (forall s, get d "description" = VString s -> trim s <> EmptyString ->
      form_description (values st1) = s)
  /\ get d "description" <> VUndefined.
Proof.
  intros Hn Hflag Hdesc a st1.
  destruct (normalize_gives_object _ _ _ Hn) as (f0 & f & _ & ->).
  pose proof (normalize_ok _ _ _ Hn) as (Hacc & Hamount & _ & Hd & _).
  destruct (handler_writes props Date_new st f Hflag Hdesc)
    as (Ha & Ht & _ & Hde & _).
  fold st1 in Ha, Ht, Hde. rewrite Hamount in Ha, Ht. fold a in Ha, Ht.
  assert (Hnan : isNaN a = false).
  { unfold draft_accepted, amount_accepted in Hacc.
    apply andb_true_iff in Hacc as [Hacc _].
    apply andb_true_iff in Hacc as [_ Hacc]. by apply negb_true_iff in Hacc. }
  unfold usable_amount in Ha, Ht. simpl parseFloat in Ha, Ht.
  rewrite Hnan in Ha, Ht. simpl negb in Ha, Ht. simpl andb in Ha, Ht.
  split; [by destruct (gt_zero a)|]. split; [by destruct (gt_zero a)|]. split.
  - intros s Hs Hne. rewrite Hs in Hde. rewrite Hde.
    destruct (String.eqb (trim s) EmptyString) eqn:E; [|done].
    apply String.eqb_eq in E. contradiction.
  - rewrite Hd. unfold normalized_description.
    destruct (ToBoolean (get (VObject fields) "description")) eqn:E; [|done].
    by apply truthy_defined.
Qed.

Lemma server_draft_in_form_witness :
  exists d,
    normalize "2025-06-01"
      (VObject [("amount", VString "12.50"); ("category", VString "Transport")]) = Ok d
    /\ form_description
         (values (step sample_props sample_Date_new (ScanComplete d)
                    (mount sample_props sample_now)))
       = "Receipt Transaction".
Proof.
  eexists. split; [reflexivity|].
  refine (proj1 (proj2 (proj2
            (server_draft_in_form sample_props sample_Date_new
               (mount sample_props sample_now) "2025-06-01"
               [("amount", VString "12.50"); ("category", VString "Transport")] _
               eq_refl eq_refl eq_refl))) "Receipt Transaction" eq_refl _).
  vm_compute. discriminate.
Defined.
